(** * loctocat: the OAuth 2.0 device-flow authenticator

    A shallow embedding of [loctocat/auth.py] (classes [Handler],
    [LoctocatAuthInfo], [Authenticator], [AsyncAuthenticator]) and of the
    context manager of [loctocat/_spinner.py], followed by the properties
    of the request/poll state machine.

    Conventions of the embedding.
    - A decoded JSON document is a [pyval]; a JSON object is a
      [gmap string pyval] (a Python [dict] with [str] keys).  JSON numbers
      are restricted to integers.
    - The authorization server is a script: [ping] is given the decoded
      body of the device-authorization response, [poll] the list of decoded
      bodies the token endpoint answers with, one per request.  Bodies are
      JSON objects.
    - Side effects are recorded in a trace of [Event]s (HTTP requests,
      what handler actions do, console and spinner output), and every
      operation threads the [Authenticator] it mutates.
    - [oauthlib]'s [DeviceClient.prepare_request_uri] first refuses an
      endpoint that is not https ([is_secure_transport], with the
      environment variable [OAUTHLIB_INSECURE_TRANSPORT] unset), then
      builds a string from its arguments; the embedding keeps the
      arguments ([Uri]).  URLs are ASCII.
    - [time.sleep] is CPython's on a 64-bit clock of nanoseconds. *)

From Stdlib Require Import ZArith NArith Ascii.
From stdpp Require Import base option strings list gmap.

#[local] Set Warnings "-register-all".
Local Open Scope string_scope.
Local Open Scope list_scope.

(** ** Python values *)

Module Py.

(** What [response.json()] can hold. *)
Inductive pyval : Type :=
| PNone
| PBool (b : bool)
| PInt (n : Z)
| PStr (s : string)
| PList (items : list pyval)
| PDict (entries : gmap string pyval).

(** A decoded JSON object. *)
Abbreviation dict := (gmap string pyval).

(** [bool(v)] *)
Definition truthy (v : pyval) : bool :=
  match v with
  | PNone => false
  | PBool b => b
  | PInt n => negb (n =? 0)%Z
  | PStr s => negb (String.eqb s "")
  | PList items => match items with [] => false | _ => true end
  | PDict entries => negb (bool_decide (size entries = 0%nat))
  end.

(** [a or b] *)
Definition or_ (a b : pyval) : pyval := if truthy a then a else b.

(** [d.get(k)]: the value, [None] when the key is absent. *)
Definition get (d : dict) (k : string) : pyval := default PNone (d !! k).

(** [k in d] *)
Definition contains (d : dict) (k : string) : bool := bool_decide (is_Some (d !! k)).

(** [s == v] for a [str] [s]: only an equal [str] compares equal. *)
Definition str_eq (s : string) (v : pyval) : bool :=
  match v with
  | PStr t => String.eqb s t
  | _ => false
  end.

End Py.
Import Py.

(** ** Data model of [auth.py] *)

(** The two lambdas of [_get_default_handlers], and callables supplied by
    the application, named by a number and interpreted by the
    [callbacks] table of section [Protocol]. *)
Inductive Action : Type :=
| sleep_interval          (* lambda ctx: time.sleep(ctx.auth_info.interval) *)
| compare_poll_interval   (* lambda ctx: ctx.poll_interval == ctx.poll_interval + 5 *)
| callback (id : nat).

(** [class Handler] *)
Record Handler : Type := mkHandler {
  error : string;
  action : Action;
  continue_on_error : bool
}.

(** [class LoctocatAuthInfo]; every slot holds whatever the response held. *)
Record LoctocatAuthInfo : Type := mkAuthInfo {
  device_code : pyval;
  user_code : pyval;
  verification_uri : pyval;
  expires_in : pyval;
  interval : pyval
}.

(** [DeviceClient(client_id=..., scope=..., **extras)] *)
Record DeviceClient : Type := mkDeviceClient {
  dc_client_id : string;
  dc_scope : option (list string);
  dc_extras : list (string * pyval)
}.

(** The arguments of one [prepare_request_uri] call that passed the
    transport check. *)
Record Uri : Type := mkUri {
  uri_client : DeviceClient;
  uri_endpoint : string;
  uri_device_code : option pyval
}.

Definition prepare_request_uri (dc : DeviceClient) (endpoint : string)
    (device_code_kw : option pyval) : Uri :=
  {| uri_client := dc; uri_endpoint := endpoint; uri_device_code := device_code_kw |}.

(** [c.lower()] for an ASCII character *)
Definition lower_ascii (c : ascii) : ascii :=
  let n := N_of_ascii c in
  if ((65 <=? n) && (n <=? 90))%N then ascii_of_N (n + 32) else c.

(** [s.lower()] *)
Fixpoint lower (s : string) : string :=
  match s with
  | EmptyString => EmptyString
  | String c rest => String (lower_ascii c) (lower rest)
  end.

(** [oauthlib]'s [is_secure_transport(uri)], which
    [DeviceClient.prepare_request_uri] calls before anything else,
    raising [InsecureTransportError] when it fails:
    [uri.lower().startswith("https://")]. *)
Definition is_secure_transport (uri : string) : bool :=
  String.prefix "https://" (lower uri).

(** [class Authenticator] (and its subclass [AsyncAuthenticator], which
    adds no attribute). *)
Record Authenticator : Type := mkAuthenticator {
  client_id : string;
  auth_url : string;
  token_url : string;
  scopes : option (list string);
  poll_interval : Z;
  auth_info : option LoctocatAuthInfo;
  _handlers : list Handler;
  _dc : DeviceClient
}.

Definition set_auth_info (self : Authenticator) (ai : option LoctocatAuthInfo) : Authenticator :=
  {| client_id := client_id self; auth_url := auth_url self; token_url := token_url self;
     scopes := scopes self; poll_interval := poll_interval self;
     auth_info := ai; _handlers := _handlers self; _dc := _dc self |}.

Definition set_handlers (self : Authenticator) (hs : list Handler) : Authenticator :=
  {| client_id := client_id self; auth_url := auth_url self; token_url := token_url self;
     scopes := scopes self; poll_interval := poll_interval self;
     auth_info := auth_info self; _handlers := hs; _dc := _dc self |}.

(** The argument of a [ServerError]: the value itself, or an f-string
    that interpolates it after a literal. *)
Inductive ErrorArg : Type :=
| Verbatim (v : pyval)
| Interpolated (literal : string) (v : pyval).

(** Modelled from the spec: [loctocat/exceptions.py], where [ServerError]
    is declared, is not among the sources; [ServerError] is the fatal
    authorization-server error and carries the argument it is raised
    with.  [InsecureTransportError] is [oauthlib]'s; the other
    constructors are Python's built-in exceptions. *)
Inductive Exn : Type :=
| ServerError (arg : ErrorArg)
| KeyError (key : string)
| AttributeError (attr : string)
| TypeError
| ValueError
| OverflowError
| InsecureTransportError
| CallbackError (tag : nat).

Record Halo : Type := mkHalo { halo_text : string; halo_spinner : string }.

Inductive Printed : Type :=
| DefaultPrompt (uri code : pyval)   (* f"Go to {uri} and enter code {colored(code)} to authenticate." *)
| Text (s : string).

Inductive Event : Type :=
| Post (uri : Uri)                       (* POST uri, Accept: application/json *)
| Sleep (seconds : Z)                    (* time.sleep *)
| Effect (tag : nat)                     (* something a callback does *)
| Console (p : Printed)
| SpinnerStart (sp : Halo)
| SpinnerSucceed (sp : Halo) (text : option string)
| SpinnerStop (sp : Halo).

(** ** The handler registry *)

(** [next((h for h in handlers if h.error == code), None)] *)
Fixpoint find_handler (handlers : list Handler) (code : pyval) : option Handler :=
  match handlers with
  | [] => None
  | h :: rest => if str_eq (error h) code then Some h else find_handler rest code
  end.

(** [handlers.remove(next(h for h in handlers if h.error == code))],
    with the [StopIteration] of a missing code caught: the first handler
    for [code] is dropped, if there is one. *)
Fixpoint remove_first (handlers : list Handler) (code : string) : list Handler :=
  match handlers with
  | [] => []
  | h :: rest => if String.eqb (error h) code then rest else h :: remove_first rest code
  end.

Definition attach_handler (self : Authenticator) (handler : Handler) : Authenticator :=
  set_handlers self (remove_first (_handlers self) (error handler) ++ [handler]).

Definition get_handlers (self : Authenticator) : list Handler := _handlers self.

Definition _get_default_handlers : list Handler :=
  [ mkHandler "authorization_pending" sleep_interval true;
    mkHandler "slow_down" compare_poll_interval true ].

(** [Authenticator.__init__], for [extras] that name neither [client_id]
    nor [scope] (with one that does, the call
    [DeviceClient(client_id=..., scope=..., **extras)] is a [TypeError]). *)
Definition new_authenticator (client_id auth_url token_url : string)
    (scopes : option (list string)) (poll_interval : Z)
    (extras : list (string * pyval)) : Authenticator :=
  foldl attach_handler
    {| client_id := client_id; auth_url := auth_url; token_url := token_url;
       scopes := scopes; poll_interval := poll_interval;
       auth_info := None; _handlers := [];
       _dc := mkDeviceClient client_id scopes extras |}
    _get_default_handlers.

(** ** [ping] *)

(** [d[k]] *)
Definition subscript (d : dict) (k : string) : Exn + pyval :=
  match d !! k with
  | Some v => inr v
  | None => inl (KeyError k)
  end.

(** The [LoctocatAuthInfo(...)] call of [ping]; the keyword arguments are
    evaluated left to right, so the first missing key is the one reported. *)
Definition build_auth_info (response : dict) : Exn + LoctocatAuthInfo :=
  match subscript response "device_code" with
  | inl e => inl e
  | inr dc =>
  match subscript response "user_code" with
  | inl e => inl e
  | inr uc =>
  let vu := or_ (get response "verification_uri") (get response "verification_url") in
  match subscript response "expires_in" with
  | inl e => inl e
  | inr ei =>
  match subscript response "interval" with
  | inl e => inl e
  | inr iv => inr (mkAuthInfo dc uc vu ei iv)
  end end end end.

(** [Authenticator.ping] and [AsyncAuthenticator.ping], which differ in
    the HTTP library only: the new state, the trace, and the exception
    raised or the [LoctocatAuthInfo] returned. *)
Definition ping (self : Authenticator) (response : dict)
    : Authenticator * list Event * (Exn + LoctocatAuthInfo) :=
  if is_secure_transport (auth_url self) then
    let uri := prepare_request_uri (_dc self) (auth_url self) None in
    match build_auth_info response with
    | inl e => (self, [Post uri], inl e)
    | inr ai => (set_auth_info self (Some ai), [Post uri], inr ai)
    end
  else (self, [], inl InsecureTransportError).

(** ** Handler actions and the poll loop *)

(** What one call of a callback does: the [Authenticator] it leaves,
    what it did on the way, and the exception it raised, if any. *)
Record Ran : Type := mkRan {
  after : Authenticator;
  did : list Event;
  raised : option Exn
}.

(** How a [poll] call ends: [return response["access_token"]], [break],
    an exception, or, when the scripted responses are used up, still
    waiting at the top of the loop. *)
Inductive Outcome : Type :=
| Token (v : pyval)
| SilentStop
| Raised (e : Exn)
| Pending.

(** What the caller of a method gets. *)
Inductive Result : Type :=
| Return (v : pyval)
| Raise (e : Exn)
| Waiting.

(** Falling off the end of [poll] after [break] returns [None]. *)
Definition result_of (o : Outcome) : Result :=
  match o with
  | Token v => Return v
  | SilentStop => Return PNone
  | Raised e => Raise e
  | Pending => Waiting
  end.

(** The largest number of seconds whose nanoseconds fit into 64 bits. *)
Definition sleep_limit : Z := 9223372036.

(** [time.sleep(v)]: the seconds are first converted to nanoseconds,
    which overflows beyond [sleep_limit] either way, and then refused
    when negative. *)
Definition time_sleep (v : pyval) : list Event * option Exn :=
  match v with
  | PInt n =>
      if (Z.abs n >? sleep_limit)%Z then ([], Some OverflowError)
      else if (n <? 0)%Z then ([], Some ValueError)
      else ([Sleep n], None)
  | PBool b => ([Sleep (if b then 1 else 0)], None)
  | _ => ([], Some TypeError)
  end.

(** [authenticate]'s keyword arguments. *)
Record Options : Type := mkOptions {
  use_default_message : bool;
  message : option string;
  use_default_success_message : bool;
  success_message : option string;
  use_default_spinner : bool;
  spinner : option Halo
}.

(** [bool(s)] for an optional [str] *)
Definition given (s : option string) : bool :=
  match s with
  | Some t => negb (String.eqb t "")
  | None => false
  end.

Section Protocol.

(** The callables the application put into its handlers; the events of a
    callback are [Effect]s. *)
Variable callbacks : nat -> Authenticator -> Authenticator * list nat * option Exn.

(** [handler.action(self)] *)
Definition run_action (a : Action) (self : Authenticator) : Ran :=
  match a with
  | sleep_interval =>
      match auth_info self with
      | None => mkRan self [] (Some (AttributeError "interval"))
      | Some ai => let '(evs, e) := time_sleep (interval ai) in mkRan self evs e
      end
  | compare_poll_interval =>
      (* the value of [==] is dropped *)
      let _ := (poll_interval self =? poll_interval self + 5)%Z in
      mkRan self [] None
  | callback id =>
      let '(self', tags, e) := callbacks id self in
      mkRan self' (Effect <$> tags) e
  end.

Definition emit (evs : list Event) (r : Authenticator * list Event * Outcome)
    : Authenticator * list Event * Outcome :=
  let '(self, tr, o) := r in (self, evs ++ tr, o).

(** The [while True] loop of [Authenticator.poll]; each iteration takes
    the next scripted response. *)
Fixpoint poll_loop (uri : Uri) (self : Authenticator) (responses : list dict)
    : Authenticator * list Event * Outcome :=
  match responses with
  | [] => (self, [], Pending)
  | response :: rest =>
      if contains response "error" then
        match find_handler (_handlers self) (get response "error") with
        | Some handler =>
            let r := run_action (action handler) self in
            match raised r with
            | Some e => (after r, Post uri :: did r, Raised e)
            | None =>
                if continue_on_error handler
                then emit (Post uri :: did r) (poll_loop uri (after r) rest)
                else (after r, Post uri :: did r, SilentStop)
            end
        | None => (self, [Post uri], Raised (ServerError (Verbatim (get response "error"))))
        end
      else
        match subscript response "access_token" with
        | inr v => (self, [Post uri], Token v)
        | inl e => (self, [Post uri], Raised e)
        end
  end.

(** [Authenticator.poll] *)
Definition poll (self : Authenticator) (responses : list dict)
    : Authenticator * list Event * Outcome :=
  match auth_info self with
  | None => (self, [], Raised (AttributeError "device_code"))
  | Some ai =>
      if is_secure_transport (token_url self) then
        poll_loop (prepare_request_uri (_dc self) (token_url self) (Some (device_code ai)))
          self responses
      else (self, [], Raised InsecureTransportError)
  end.

(** The [while True] loop of [AsyncAuthenticator.poll]. *)
Fixpoint async_poll_loop (uri : Uri) (self : Authenticator) (responses : list dict)
    : Authenticator * list Event * Outcome :=
  match responses with
  | [] => (self, [], Pending)
  | response :: rest =>
      if contains response "error" then
        match find_handler (_handlers self) (get response "error") with
        | Some handler =>
            let r := run_action (action handler) self in
            match raised r with
            | Some e => (after r, Post uri :: did r, Raised e)
            | None => emit (Post uri :: did r) (async_poll_loop uri (after r) rest)
            end
        | None =>
            (self, [Post uri],
             Raised (ServerError
               (Interpolated "The server returned the following error: " (get response "error"))))
        end
      else
        match subscript response "access_token" with
        | inr v => (self, [Post uri], Token v)
        | inl e => (self, [Post uri], Raised e)
        end
  end.

(** [AsyncAuthenticator.poll] *)
Definition async_poll (self : Authenticator) (responses : list dict)
    : Authenticator * list Event * Outcome :=
  match auth_info self with
  | None => (self, [], Raised (AttributeError "device_code"))
  | Some ai =>
      if is_secure_transport (token_url self) then
        async_poll_loop
          (prepare_request_uri (_dc self) (token_url self) (Some (device_code ai)))
          self responses
      else (self, [], Raised InsecureTransportError)
  end.

(** ** [authenticate] and the [_Spinner] context manager *)

(** [spin_condition] runs a method of [_Spinner] only when the wrapped
    spinner is truthy, and returns the [_Spinner] itself otherwise.  With
    a spinner, [__enter__] starts it and binds [sp] to the [Halo]; without
    one, [sp] is the [_Spinner], whose [succeed] does nothing. *)
Definition spinner_enter (sp : option Halo) : list Event :=
  match sp with
  | Some h => [SpinnerStart h]
  | None => []
  end.

(** [sp.succeed(text)] and [sp.succeed()] *)
Definition spinner_succeed (sp : option Halo) (text : option string) : list Event :=
  match sp with
  | Some h => [SpinnerSucceed h text]
  | None => []
  end.

(** [__exit__]: what it does, and whether what it returns is truthy (which
    makes the [with] statement swallow the exception of its body).  With a
    spinner it returns the [None] of [stop()]; without, the [_Spinner]. *)
Definition spinner_exit (sp : option Halo) : list Event * bool :=
  match sp with
  | Some h => ([SpinnerStop h], false)
  | None => ([], true)
  end.

(** The spinner the [with] statement wraps. *)
Definition chosen_spinner (opts : Options) : option Halo :=
  if use_default_spinner opts && negb (bool_decide (is_Some (spinner opts)))
  then Some (mkHalo "Waiting for authentication..." "dots")
  else spinner opts.

(** The message shown before polling. *)
Definition prompt (opts : Options) (self : Authenticator) : Exn + list Event :=
  if use_default_message opts && negb (given (message opts)) then
    match auth_info self with
    | Some ai => inr [Console (DefaultPrompt (verification_uri ai) (user_code ai))]
    | None => inl (AttributeError "verification_uri")
    end
  else if given (message opts) then inr [Console (Text (default "" (message opts)))]
  else inr [].

(** The three-way [if] after [token = self.poll()]. *)
Definition announce (opts : Options) : list Event :=
  let sp := chosen_spinner opts in
  if use_default_success_message opts && negb (given (success_message opts))
  then spinner_succeed sp (Some "Authentication successful!")
  else if given (success_message opts) then spinner_succeed sp (success_message opts)
  else spinner_succeed sp None.

(** [Authenticator.authenticate] *)
Definition authenticate (opts : Options) (self : Authenticator)
    (device_response : dict) (token_responses : list dict)
    : Authenticator * list Event * Result :=
  let '(self1, tr1, pinged) := ping self device_response in
  match pinged with
  | inl e => (self1, tr1, Raise e)
  | inr _ =>
      match prompt opts self1 with
      | inl e => (self1, tr1, Raise e)
      | inr shown =>
          let sp := chosen_spinner opts in
          let '(self2, tr2, o) := poll self1 token_responses in
          let before := tr1 ++ shown ++ spinner_enter sp ++ tr2 in
          match result_of o with
          | Return token =>
              (self2, before ++ announce opts ++ (spinner_exit sp).1, Return token)
          | Raise e =>
              let '(evs, swallowed) := spinner_exit sp in
              (self2, before ++ evs, if swallowed then Return PNone else Raise e)
          | Waiting => (self2, before, Waiting)
          end
      end
  end.

End Protocol.

(** The request [poll] and [AsyncAuthenticator.poll] prepare before their
    loop, for the [LoctocatAuthInfo] held at that moment, when the token
    endpoint passes the transport check. *)
Definition token_request (self : Authenticator) (ai : LoctocatAuthInfo) : Uri :=
  prepare_request_uri (_dc self) (token_url self) (Some (device_code ai)).

(** [AsyncAuthenticator.authenticate]: the body of
    [Authenticator.authenticate] with [await self.ping()] and
    [await self.poll()], the latter being [AsyncAuthenticator.poll]. *)
Definition async_authenticate
    (callbacks : nat -> Authenticator -> Authenticator * list nat * option Exn)
    (opts : Options) (self : Authenticator)
    (device_response : dict) (token_responses : list dict)
    : Authenticator * list Event * Result :=
  let '(self1, tr1, pinged) := ping self device_response in
  match pinged with
  | inl e => (self1, tr1, Raise e)
  | inr _ =>
      match prompt opts self1 with
      | inl e => (self1, tr1, Raise e)
      | inr shown =>
          let sp := chosen_spinner opts in
          let '(self2, tr2, o) := async_poll callbacks self1 token_responses in
          let before := tr1 ++ shown ++ spinner_enter sp ++ tr2 in
          match result_of o with
          | Return token =>
              (self2, before ++ announce opts ++ (spinner_exit sp).1, Return token)
          | Raise e =>
              let '(evs, swallowed) := spinner_exit sp in
              (self2, before ++ evs, if swallowed then Return PNone else Raise e)
          | Waiting => (self2, before, Waiting)
          end
      end
  end.

(** ** [predefined.py] *)

(** [class GitHubAuthenticator(Authenticator)]: the attributes of an
    [Authenticator], and [scope]. *)
Record GitHubAuthenticator : Type := mkGitHubAuthenticator {
  github_base : Authenticator;
  scope : option (list string)
}.

(** [GitHubAuthenticator.__init__]: [client_id] and [scope] are set, then
    [super().__init__(client_id, auth_url, token_url, scopes)] runs with
    the default [poll_interval] and no extras. *)
Definition new_github_authenticator (client_id : string)
    (scopes : option (list string)) : GitHubAuthenticator :=
  {| github_base :=
       new_authenticator client_id "https://github.com/login/device/code"
         "https://github.com/login/oauth/access_token" scopes 5 [];
     scope := scopes |}.

(** ** Reading traces *)

(** The requests of a trace, in order. *)
Definition requests (tr : list Event) : list Uri :=
  omap (fun e => match e with Post u => Some u | _ => None end) tr.

(** What a trace prints, in order. *)
Definition consoles (tr : list Event) : list Printed :=
  omap (fun e => match e with Console p => Some p | _ => None end) tr.

(** Whether an action is one of the two default lambdas. *)
Definition is_default (a : Action) : bool :=
  match a with
  | callback _ => false
  | _ => true
  end.

(** ** Scenarios

    Concrete Authenticators, responses and callbacks on which the
    properties below are exercised. *)

Module Sample.

Definition obj (fields : list (string * pyval)) : dict := list_to_map fields.

(** [Authenticator("my-client", ".../device/code", ".../token")] *)
Definition app : Authenticator :=
  new_authenticator "my-client" "https://auth.example/device/code"
    "https://auth.example/token" None 5 [].

Definition device_response : dict :=
  obj [("device_code", PStr "dev-1"); ("user_code", PStr "ABCD-1234");
       ("verification_uri", PStr "https://auth.example/activate");
       ("expires_in", PInt 900); ("interval", PInt 5)].

(** Both spellings of the verification field, the first one empty. *)
Definition empty_uri_response : dict :=
  obj [("device_code", PStr "dev-1"); ("user_code", PStr "ABCD-1234");
       ("verification_uri", PStr "");
       ("verification_url", PStr "https://auth.example/activate");
       ("expires_in", PInt 900); ("interval", PInt 5)].

(** Neither spelling of the verification field. *)
Definition no_verification_response : dict :=
  obj [("device_code", PStr "dev-1"); ("user_code", PStr "ABCD-1234");
       ("expires_in", PInt 900); ("interval", PInt 5)].

(** [app] after [app.ping()] was answered with [device_response]. *)
Definition pinged : Authenticator := (ping app device_response).1.1.

Definition error_response (code : string) : dict := obj [("error", PStr code)].
Definition token_response (token : string) : dict := obj [("access_token", PStr token)].

(** No application callbacks: every callable does nothing. *)
Definition no_callbacks (id : nat) (self : Authenticator)
    : Authenticator * list nat * option Exn := (self, [], None).

(** [Handler("access_denied", lambda ctx: None, continue_on_error=False)] *)
Definition deny : Handler := mkHandler "access_denied" (callback 0) false.

(** Callback 1 stores a new [LoctocatAuthInfo] whose device code is
    ["dev-2"]:
    [lambda ctx: setattr(ctx, "auth_info", LoctocatAuthInfo("dev-2", ...))] *)
Definition rotating_callbacks (id : nat) (self : Authenticator)
    : Authenticator * list nat * option Exn :=
  match id with
  | 1%nat =>
      (set_auth_info self
         (Some (mkAuthInfo (PStr "dev-2") (PStr "WXYZ-9876")
                  (PStr "https://auth.example/activate") (PInt 900) (PInt 5))),
       [], None)
  | _ => (self, [], None)
  end.

Definition rotate : Handler := mkHandler "rotate" (callback 1) true.

End Sample.

(** Further scenarios. *)
Module Cases.

Definition pending : dict := Sample.error_response "authorization_pending".

(** A device-authorization response whose [interval] is a string. *)
Definition text_interval_response : dict :=
  Sample.obj [("device_code", PStr "dev-1"); ("user_code", PStr "ABCD-1234");
              ("verification_uri", PStr "https://auth.example/activate");
              ("expires_in", PInt 900); ("interval", PStr "5")].

(** A device-authorization response without [user_code] and [interval]. *)
Definition short_response : dict :=
  Sample.obj [("device_code", PStr "dev-1");
              ("verification_uri", PStr "https://auth.example/activate");
              ("expires_in", PInt 900)].

(** [authenticate()] with its defaults. *)
Definition defaults : Options := mkOptions true None true None true None.

(** [authenticate(use_default_spinner=False)] *)
Definition no_spinner : Options := mkOptions true None true None false None.

(** Callback 2 raises: [lambda ctx: ctx.missing] *)
Definition failing_callbacks (id : nat) (self : Authenticator)
    : Authenticator * list nat * option Exn :=
  match id with
  | 2%nat => (self, [], Some (AttributeError "missing"))
  | _ => (self, [], None)
  end.

Definition broken : Handler := mkHandler "access_denied" (callback 2) false.

End Cases.

(** * Properties *)

(** ** The handler registry *)

Section Registry.

Implicit Types (hs : list Handler) (h : Handler) (c : string).

Lemma str_eq_PStr (s t : string) : str_eq s (PStr t) = true ↔ s = t.
Proof. simpl. apply String.eqb_eq. Qed.

Lemma remove_first_subseteq hs c :
  (error <$> remove_first hs c) ⊆ (error <$> hs).
Proof.
  induction hs as [|h hs IH]; cbn [remove_first]; [done|].
  rewrite fmap_cons. destruct (String.eqb (error h) c).
  - intros x Hx. by apply list_elem_of_further.
  - rewrite fmap_cons. intros x Hx. apply elem_of_cons in Hx as [->|Hx].
    + apply list_elem_of_here.
    + apply list_elem_of_further, IH, Hx.
Qed.

Lemma remove_first_NoDup hs c :
  NoDup (error <$> hs) → NoDup (error <$> remove_first hs c).
Proof.
  induction hs as [|h hs IH]; cbn [remove_first]; [done|].
  rewrite fmap_cons. intros [Hnotin Hnd]%NoDup_cons.
  destruct (String.eqb (error h) c); [done|].
  rewrite fmap_cons. apply NoDup_cons. split; [|by apply IH].
  intros Hin. by apply Hnotin, (remove_first_subseteq hs c).
Qed.

Lemma remove_first_gone hs c :
  NoDup (error <$> hs) → c ∉ (error <$> remove_first hs c).
Proof.
  induction hs as [|h hs IH]; cbn [remove_first].
  - intros _. apply not_elem_of_nil.
  - rewrite fmap_cons. intros [Hnotin Hnd]%NoDup_cons.
    destruct (String.eqb (error h) c) eqn:E.
    + apply String.eqb_eq in E. by subst.
    + apply String.eqb_neq in E. rewrite fmap_cons.
      apply not_elem_of_cons. split; [done | by apply IH].
Qed.

Lemma find_handler_absent hs c :
  c ∉ (error <$> hs) → find_handler hs (PStr c) = None.
Proof.
  induction hs as [|h hs IH]; [done|].
  rewrite fmap_cons. intros [Hne Hnotin]%not_elem_of_cons.
  simpl. destruct (String.eqb (error h) c) eqn:E.
  - apply String.eqb_eq in E. congruence.
  - by apply IH.
Qed.

Lemma find_handler_app hs hs' (code : pyval) :
  find_handler (hs ++ hs') code =
  match find_handler hs code with
  | Some h => Some h
  | None => find_handler hs' code
  end.
Proof.
  induction hs as [|h hs IH]; simpl; [done|].
  by destruct (str_eq (error h) code).
Qed.

Lemma find_handler_Some hs (code : pyval) h :
  find_handler hs code = Some h → h ∈ hs ∧ code = PStr (error h).
Proof.
  induction hs as [|h' hs IH]; simpl; [done|].
  destruct (str_eq (error h') code) eqn:E.
  - intros [= ->]. split; [apply list_elem_of_here|].
    destruct code; try discriminate. apply str_eq_PStr in E. by subst.
  - intros [Hin ->]%IH. split; [by apply list_elem_of_further | done].
Qed.

Lemma filter_code_absent hs c :
  c ∉ (error <$> hs) → filter (λ h, error h = c) hs = [].
Proof.
  induction hs as [|h hs IH]; [done|].
  rewrite fmap_cons. intros [Hne Hnotin]%not_elem_of_cons.
  rewrite filter_cons_False; [by apply IH | congruence].
Qed.

(** One [attach_handler] call on a registry without duplicates. *)
Lemma attach_handler_spec self h :
  NoDup (error <$> get_handlers self) →
  let self' := attach_handler self h in
  NoDup (error <$> get_handlers self') ∧
  find_handler (get_handlers self') (PStr (error h)) = Some h ∧
  filter (λ h', error h' = error h) (get_handlers self') = [h].
Proof.
  intros Hnd. unfold attach_handler, get_handlers in *. simpl.
  pose proof (remove_first_gone _ (error h) Hnd) as Hgone.
  split; [|split].
  - rewrite fmap_app. apply NoDup_app. split; [by apply remove_first_NoDup|].
    split; [|apply NoDup_singleton].
    intros x Hx [->|[]%elem_of_nil]%elem_of_cons. by apply Hgone.
  - rewrite find_handler_app, (find_handler_absent _ _ Hgone). simpl.
    by rewrite String.eqb_refl.
  - rewrite filter_app, (filter_code_absent _ _ Hgone).
    by rewrite filter_cons_True, filter_nil.
Qed.

Lemma attach_handlers_NoDup self (attached : list Handler) :
  NoDup (error <$> get_handlers self) →
  NoDup (error <$> get_handlers (foldl attach_handler self attached)).
Proof.
  revert self. induction attached as [|h attached IH]; intros self Hnd; simpl; [done|].
  apply IH. by apply (attach_handler_spec self h).
Qed.

Lemma new_authenticator_NoDup cid au tu sc pi ex :
  NoDup (error <$> get_handlers (new_authenticator cid au tu sc pi ex)).
Proof.
  unfold new_authenticator. apply attach_handlers_NoDup. simpl. apply NoDup_nil_2.
Qed.

(** C7. Whatever handlers have been attached to a freshly constructed
    Authenticator, its registry holds at most one handler per error code;
    and attaching two handlers with the same error code one after the
    other leaves the second as the handler found for that code and as the
    only entry of [get_handlers] with that code. *)
Theorem attach_handler_last_write_wins
    cid au tu sc pi ex (attached : list Handler) (h1 h2 : Handler) :
  error h1 = error h2 →
  let self := foldl attach_handler (new_authenticator cid au tu sc pi ex) attached in
  let self' := attach_handler (attach_handler self h1) h2 in
  NoDup (error <$> get_handlers self) ∧
  NoDup (error <$> get_handlers self') ∧
  find_handler (get_handlers self') (PStr (error h2)) = Some h2 ∧
  filter (λ h, error h = error h2) (get_handlers self') = [h2].
Proof.
  intros Hsame self self'.
  assert (NoDup (error <$> get_handlers self)) as Hnd
    by apply attach_handlers_NoDup, new_authenticator_NoDup.
  split; [done|].
  apply (attach_handler_spec (attach_handler self h1) h2).
  by apply (attach_handler_spec self h1).
Qed.

End Registry.

(** ** [ping] *)

Section Ping.

Implicit Types (self : Authenticator) (response : dict).

(** Over https, a response that lacks one of the four subscripted keys
    makes [ping] raise [KeyError] after the request, and leaves the
    Authenticator as it was. *)
Lemma ping_missing_key self response k :
  is_secure_transport (auth_url self) = true →
  k ∈ ["device_code"; "user_code"; "expires_in"; "interval"] →
  response !! k = None →
  ∃ k', ping self response =
        (self, [Post (prepare_request_uri (_dc self) (auth_url self) None)], inl (KeyError k')).
Proof.
  intros Hsecure Hk Hmiss. unfold ping, build_auth_info, subscript. rewrite Hsecure.
  repeat match goal with
         | |- context [response !! ?key] => destruct (response !! key) eqn:?
         end; eauto.
  exfalso. repeat (apply elem_of_cons in Hk as [->|Hk]; [congruence|]).
  by apply elem_of_nil in Hk.
Qed.

(** C5, as the code has it.  For an Authenticator whose authorization
    endpoint is https and a response in which [device_code], [user_code],
    [expires_in], [interval] and a verification field are present, [ping]
    posts one request to the authorization endpoint, returns a
    [LoctocatAuthInfo] holding exactly these four values, and stores it as
    the current [auth_info] whatever was stored before.  Its
    [verification_uri] is the response's [verification_uri] when that is
    present and truthy, and the response's [verification_url] when that is
    present and [verification_uri] is absent or falsy (empty string,
    [None], zero, ...), also when both are present. *)
Theorem ping_builds_auth_info self response dc uc ei iv :
  is_secure_transport (auth_url self) = true →
  response !! "device_code" = Some dc →
  response !! "user_code" = Some uc →
  response !! "expires_in" = Some ei →
  response !! "interval" = Some iv →
  is_Some (response !! "verification_uri") ∨ is_Some (response !! "verification_url") →
  ∃ ai,
    ping self response =
      (set_auth_info self (Some ai),
       [Post (prepare_request_uri (_dc self) (auth_url self) None)], inr ai) ∧
    auth_info (set_auth_info self (Some ai)) = Some ai ∧
    device_code ai = dc ∧ user_code ai = uc ∧ expires_in ai = ei ∧ interval ai = iv ∧
    (∀ u, response !! "verification_uri" = Some u → truthy u = true →
          verification_uri ai = u) ∧
    (∀ l, truthy (get response "verification_uri") = false →
          response !! "verification_url" = Some l →
          verification_uri ai = l).
Proof.
  intros Hsecure Hdc Huc Hei Hiv _. unfold ping, build_auth_info, subscript.
  rewrite Hsecure, Hdc, Huc, Hei, Hiv. eexists. split; [reflexivity|].
  repeat split; simpl.
  - intros u Hu Htrue. unfold or_, get. rewrite Hu. simpl. by rewrite Htrue.
  - intros l Hfalse Hl. unfold or_. rewrite Hfalse. unfold get. by rewrite Hl.
Qed.

End Ping.

(** ** The poll loop *)

Section Poll.

Variable callbacks : nat → Authenticator → Authenticator * list nat * option Exn.

Implicit Types (self : Authenticator) (response : dict) (responses : list dict).
Implicit Types (uri : Uri) (tr : list Event) (o : Outcome).

Lemma emit_nil (r : Authenticator * list Event * Outcome) : emit [] r = r.
Proof. by destruct r as [[??]?]. Qed.

Lemma emit_emit evs evs' (r : Authenticator * list Event * Outcome) :
  emit evs (emit evs' r) = emit (evs ++ evs') r.
Proof. destruct r as [[??]?]. simpl. by rewrite app_assoc. Qed.

Lemma emit_inv evs (r : Authenticator * list Event * Outcome) self tr o :
  emit evs r = (self, tr, o) → ∃ tr', r = (self, tr', o) ∧ tr = evs ++ tr'.
Proof. destruct r as [[??]?]. simpl. intros [= -> <- ->]. eauto. Qed.

(** Iterations that all [continue] can be run first. *)
Lemma poll_loop_app uri self before rest self1 tr1 :
  poll_loop callbacks uri self before = (self1, tr1, Pending) →
  poll_loop callbacks uri self (before ++ rest) =
  emit tr1 (poll_loop callbacks uri self1 rest).
Proof.
  revert self tr1. induction before as [|response before IH]; intros self tr1.
  - simpl. intros [= -> <-]. by rewrite emit_nil.
  - cbn [poll_loop app].
    destruct (contains response "error").
    + destruct (find_handler _ _) as [handler|]; [|done].
      destruct (raised _); [done|].
      destruct (continue_on_error handler); [|done].
      intros (tr' & Hrun & ->)%emit_inv.
      by rewrite (IH _ _ Hrun), emit_emit.
    + by destruct (subscript response "access_token").
Qed.

(** A loop that has ended did so in some iteration, which every earlier
    one led to by [continue]. *)
Lemma poll_loop_ended uri self responses self' tr o :
  poll_loop callbacks uri self responses = (self', tr, o) → o ≠ Pending →
  ∃ before response rest self1 tr1 tr2,
    responses = before ++ response :: rest ∧
    poll_loop callbacks uri self before = (self1, tr1, Pending) ∧
    poll_loop callbacks uri self1 [response] = (self', tr2, o) ∧
    tr = tr1 ++ tr2.
Proof.
  revert self tr. induction responses as [|response rest IH]; intros self tr.
  - simpl. by intros [= <- <- <-].
  - intros Hrun Hend.
    destruct (poll_loop callbacks uri self [response]) as [[self1 tr1] o1] eqn:Hone.
    assert (o1 = Pending ∨ o1 ≠ Pending) as [->|Hne] by (destruct o1; auto).
    + pose proof (poll_loop_app uri self [response] rest self1 tr1 Hone) as Happ.
      simpl app in Happ. rewrite Happ in Hrun.
      apply emit_inv in Hrun as (tr' & Hrun & ->).
      destruct (IH _ _ Hrun Hend) as (before & r & rest' & s1 & t1 & t2 & -> & Hb & Hr & ->).
      exists (response :: before), r, rest', s1, (tr1 ++ t1), t2.
      split; [done|]. split; [|split; [done | by rewrite app_assoc]].
      pose proof (poll_loop_app uri self [response] before self1 tr1 Hone) as Happ'.
      simpl app in Happ'. by rewrite Happ', Hb.
    + exists [], response, rest, self, [], tr.
      split; [done|]. split; [done|]. split; [|done].
      revert Hrun Hone Hne. cbn [poll_loop].
      destruct (contains response "error").
      * destruct (find_handler _ _) as [handler|]; [|by intros -> [= <- <- <-]].
        destruct (raised _); [by intros -> [= <- <- <-]|].
        destruct (continue_on_error handler); [|by intros -> [= <- <- <-]].
        simpl. rewrite app_nil_r. by intros _ [= <- <- <-].
      * destruct (subscript response "access_token"); by intros -> [= <- <- <-].
Qed.

Lemma async_poll_loop_app uri self before rest self1 tr1 :
  async_poll_loop callbacks uri self before = (self1, tr1, Pending) →
  async_poll_loop callbacks uri self (before ++ rest) =
  emit tr1 (async_poll_loop callbacks uri self1 rest).
Proof.
  revert self tr1. induction before as [|response before IH]; intros self tr1.
  - simpl. intros [= -> <-]. by rewrite emit_nil.
  - cbn [async_poll_loop app].
    destruct (contains response "error").
    + destruct (find_handler _ _) as [handler|]; [|done].
      destruct (raised _); [done|].
      intros (tr' & Hrun & ->)%emit_inv.
      by rewrite (IH _ _ Hrun), emit_emit.
    + by destruct (subscript response "access_token").
Qed.

(** The one iteration that ends the loop by [break]. *)
Lemma poll_loop_break uri self response self' tr :
  poll_loop callbacks uri self [response] = (self', tr, SilentStop) ↔
  ∃ handler,
    contains response "error" = true ∧
    find_handler (_handlers self) (get response "error") = Some handler ∧
    continue_on_error handler = false ∧
    raised (run_action callbacks (action handler) self) = None ∧
    self' = after (run_action callbacks (action handler) self) ∧
    tr = Post uri :: did (run_action callbacks (action handler) self).
Proof.
  cbn [poll_loop]. split.
  - destruct (contains response "error"); [|by destruct (subscript response "access_token")].
    destruct (find_handler _ _) as [handler|]; [|done].
    destruct (raised _) eqn:Hraised; [done|].
    destruct (continue_on_error handler) eqn:Hcont; [done|].
    intros [= <- <-]. exists handler. by rewrite Hraised.
  - intros (handler & -> & -> & -> & -> & -> & ->). done.
Qed.

(** Handler actions issue no request of their own. *)
Lemma run_action_no_post (a : Action) self u :
  Post u ∉ did (run_action callbacks a self).
Proof.
  destruct a as [| |id]; simpl.
  - destruct (auth_info self) as [ai|]; simpl; [|apply not_elem_of_nil].
    unfold time_sleep.
    destruct (interval ai) as [|b|n| | |]; simpl; try apply not_elem_of_nil.
    + intros [?|[]%elem_of_nil]%elem_of_cons. done.
    + destruct (Z.abs n >? sleep_limit)%Z; simpl; [apply not_elem_of_nil|].
      destruct (n <? 0)%Z; simpl; [apply not_elem_of_nil|].
      intros [?|[]%elem_of_nil]%elem_of_cons. done.
  - apply not_elem_of_nil.
  - destruct (callbacks id self) as [[self' tags] e]. simpl.
    intros (tag & ? & _)%list_elem_of_fmap. done.
Qed.

Lemma poll_loop_posts uri self responses u :
  Post u ∈ (poll_loop callbacks uri self responses).1.2 → u = uri.
Proof.
  revert self. induction responses as [|response rest IH]; intros self.
  - simpl. by intros []%elem_of_nil.
  - cbn [poll_loop].
    assert (∀ evs, Post u ∈ Post uri :: evs → Post u ∉ evs → u = uri) as Hhead.
    { intros evs [[= ->]|?]%elem_of_cons ?; done. }
    destruct (contains response "error").
    + destruct (find_handler _ _) as [handler|]; simpl;
        [|intros H; apply (Hhead _ H), not_elem_of_nil].
      pose proof (run_action_no_post (action handler) self u) as Hno.
      destruct (raised _); simpl; [intros H; by apply (Hhead _ H)|].
      destruct (continue_on_error handler); simpl; [|intros H; by apply (Hhead _ H)].
      destruct (poll_loop callbacks uri _ rest) as [[s t] o] eqn:Hrest. simpl.
      intros [[= ->]|[?| Hin]%elem_of_app]%elem_of_cons; [done..|].
      apply (IH (after (run_action callbacks (action handler) self))).
      by rewrite Hrest.
    + destruct (subscript response "access_token"); simpl;
        intros H; apply (Hhead _ H), not_elem_of_nil.
Qed.

(** C3. [poll] ends by the silent stop exactly when the loop reaches a
    response that carries an error code whose registered handler has
    [continue_on_error = False] and whose action returns: [poll] then
    stops after that action, with no further request, returning no token
    ([None]) and raising nothing; and no other path ends [poll] without a
    token and without an exception. *)
Theorem poll_silent_stop_iff self responses self' tr :
  poll callbacks self responses = (self', tr, SilentStop) ↔
  ∃ ai before response rest self1 tr1 handler,
    auth_info self = Some ai ∧
    responses = before ++ response :: rest ∧
    poll callbacks self before = (self1, tr1, Pending) ∧
    contains response "error" = true ∧
    find_handler (_handlers self1) (get response "error") = Some handler ∧
    continue_on_error handler = false ∧
    raised (run_action callbacks (action handler) self1) = None ∧
    self' = after (run_action callbacks (action handler) self1) ∧
    tr = tr1 ++ Post (token_request self ai)
               :: did (run_action callbacks (action handler) self1).
Proof.
  unfold poll. split.
  - destruct (auth_info self) as [ai|] eqn:Hai; [|done].
    destruct (is_secure_transport (token_url self)); [|done].
    intros Hrun. apply poll_loop_ended in Hrun; [|done].
    destruct Hrun as (before & response & rest & self1 & tr1 & tr2 & -> & Hb & Hr & ->).
    apply poll_loop_break in Hr as (handler & ? & ? & ? & ? & -> & ->).
    exists ai, before, response, rest, self1, tr1, handler. by repeat (split; [done|]).
  - intros (ai & before & response & rest & self1 & tr1 & handler
            & Hai & -> & Hb & Herr & Hfind & Hcont & Hraised & -> & ->).
    rewrite Hai in *. destruct (is_secure_transport (token_url self)); [|done].
    rewrite (poll_loop_app _ _ _ _ _ _ Hb).
    cbn [poll_loop]. by rewrite Herr, Hfind, Hraised, Hcont.
Qed.

(** C4. When the loop reaches a response whose error code has no
    registered handler, [poll] ends there, after that one request:
    [Authenticator.poll] raises [ServerError] with the error code itself as
    argument, [AsyncAuthenticator.poll] raises [ServerError] with a message
    that ends in the error code. *)
Theorem unhandled_error_is_fatal self before response rest self1 tr1 :
  contains response "error" = true →
  find_handler (_handlers self1) (get response "error") = None →
  (poll callbacks self before = (self1, tr1, Pending) →
   ∃ ai, auth_info self = Some ai ∧
     poll callbacks self (before ++ response :: rest) =
       (self1, tr1 ++ [Post (token_request self ai)],
        Raised (ServerError (Verbatim (get response "error"))))) ∧
  (async_poll callbacks self before = (self1, tr1, Pending) →
   ∃ ai, auth_info self = Some ai ∧
     async_poll callbacks self (before ++ response :: rest) =
       (self1, tr1 ++ [Post (token_request self ai)],
        Raised (ServerError
          (Interpolated "The server returned the following error: "
             (get response "error"))))).
Proof.
  intros Herr Hfind. unfold poll, async_poll.
  split; (destruct (auth_info self) as [ai|]; [|done]);
    (destruct (is_secure_transport (token_url self)); [|done]);
    intros Hb; exists ai; (split; [done|]).
  - rewrite (poll_loop_app _ _ _ _ _ _ Hb). cbn [poll_loop].
    by rewrite Herr, Hfind.
  - rewrite (async_poll_loop_app _ _ _ _ _ _ Hb). cbn [async_poll_loop].
    by rewrite Herr, Hfind.
Qed.

(** C8. On an Authenticator that holds no [auth_info], [poll] (of either
    class) raises at once, on reading [self.auth_info.device_code]: no
    request is sent, no token is returned, nothing changes. *)
Theorem poll_before_ping self responses :
  auth_info self = None →
  poll callbacks self responses = (self, [], Raised (AttributeError "device_code")) ∧
  async_poll callbacks self responses = (self, [], Raised (AttributeError "device_code")).
Proof. intros Hnone. unfold poll, async_poll. by rewrite Hnone. Qed.

(** C9, as the code has it.  Every request of one [poll] call is the
    request prepared once, before the loop, from the [device_code] held
    when [poll] was called, whatever the handler actions store in
    [auth_info] in between. *)
Theorem poll_requests_fixed_at_entry self ai responses u :
  auth_info self = Some ai →
  Post u ∈ (poll callbacks self responses).1.2 →
  u = token_request self ai.
Proof.
  intros Hai. unfold poll. rewrite Hai.
  destruct (is_secure_transport (token_url self)); [apply poll_loop_posts|].
  by intros []%elem_of_nil.
Qed.

End Poll.

(** ** [authenticate] *)

Section Authenticate.

Variable callbacks : nat → Authenticator → Authenticator * list nat * option Exn.

Implicit Types (self : Authenticator) (opts : Options).

Lemma ping_returned self response self1 tr1 ai :
  ping self response = (self1, tr1, inr ai) → self1 = set_auth_info self (Some ai).
Proof.
  unfold ping. destruct (is_secure_transport (auth_url self)); [|done].
  destruct (build_auth_info response); [done|]. by intros [= <- _ <-].
Qed.

(** With a spinner, the branch taken after [poll] has returned marks it
    as succeeded. *)
Lemma announce_succeeds opts sp :
  chosen_spinner opts = Some sp → ∃ text, announce opts = [SpinnerSucceed sp text].
Proof.
  unfold announce. intros ->. simpl.
  destruct (use_default_success_message opts && negb (given (success_message opts)));
    [eauto|].
  destruct (given (success_message opts)); eauto.
Qed.

(** C10. When [ping] succeeds and [poll] ends by the silent stop,
    [authenticate] raises nothing and returns [None]; around the events of
    [poll] it displays exactly what it displays when [poll] returns a
    token, the spinner's success mark included, so only the returned
    value tells the two apart. *)
Theorem authenticate_silent_stop_as_success
    opts self device_response ai self1 tr1 token_responses self2 tr2 :
  ping self device_response = (self1, tr1, inr ai) →
  poll callbacks self1 token_responses = (self2, tr2, SilentStop) →
  let sp := chosen_spinner opts in
  ∃ shown,
    authenticate callbacks opts self device_response token_responses =
      (self2,
       (tr1 ++ shown ++ spinner_enter sp ++ tr2) ++ announce opts ++ (spinner_exit sp).1,
       Return PNone) ∧
    (∀ h, sp = Some h → ∃ text, announce opts = [SpinnerSucceed h text]) ∧
    (∀ token_responses' self2' tr2' v,
       poll callbacks self1 token_responses' = (self2', tr2', Token v) →
       authenticate callbacks opts self device_response token_responses' =
         (self2',
          (tr1 ++ shown ++ spinner_enter sp ++ tr2') ++ announce opts ++ (spinner_exit sp).1,
          Return v)).
Proof.
  intros Hping Hpoll sp.
  pose proof (ping_returned _ _ _ _ _ Hping) as Hself1.
  assert (∃ shown, prompt opts self1 = inr shown) as [shown Hshown].
  { unfold prompt. rewrite Hself1. simpl.
    destruct (use_default_message opts && negb (given (message opts))); [eauto|].
    destruct (given (message opts)); eauto. }
  exists shown. split; [|split].
  - unfold authenticate. by rewrite Hping, Hshown, Hpoll.
  - apply announce_succeeds.
  - intros token_responses' self2' tr2' v Hpoll'.
    unfold authenticate. by rewrite Hping, Hshown, Hpoll'.
Qed.

End Authenticate.

(** ** The code on the scenarios *)

(** C1. The default handler for ["slow_down"] continues the loop, but its
    action only compares [poll_interval] with [poll_interval + 5]: on every
    Authenticator it changes nothing, so [poll_interval] is not increased
    by 5; polling through a ["slow_down"] response with the default
    handlers leaves [poll_interval] at 5. *)
Theorem slow_down_leaves_poll_interval :
  find_handler (get_handlers Sample.app) (PStr "slow_down")
    = Some (mkHandler "slow_down" compare_poll_interval true) ∧
  (∀ callbacks self,
     run_action callbacks compare_poll_interval self = mkRan self [] None ∧
     poll_interval (after (run_action callbacks compare_poll_interval self))
       ≠ (poll_interval self + 5)%Z) ∧
  poll_interval Sample.pinged = 5%Z ∧
  ∃ self' tr,
    poll Sample.no_callbacks Sample.pinged
      [Sample.error_response "slow_down"; Sample.token_response "tok"]
      = (self', tr, Token (PStr "tok")) ∧
    poll_interval self' = 5%Z.
Proof.
  split; [by vm_compute|]. split; [|split; [by vm_compute|]].
  - intros callbacks self. split; [done|]. simpl. lia.
  - eexists _, _. split; by vm_compute.
Qed.

(** C2. The two [poll]s disagree.  On an error whose handler has
    [continue_on_error = False], [Authenticator.poll] stops silently after
    one request while [AsyncAuthenticator.poll] goes on and returns the
    token of the next response; on an error without handler they raise
    [ServerError] with different arguments. *)
Theorem sync_async_poll_differ :
  let self := attach_handler Sample.pinged Sample.deny in
  let responses := [Sample.error_response "access_denied"; Sample.token_response "tok"] in
  let u := prepare_request_uri (_dc self) (token_url self) (Some (PStr "dev-1")) in
  poll Sample.no_callbacks self responses = (self, [Post u], SilentStop) ∧
  async_poll Sample.no_callbacks self responses = (self, [Post u; Post u], Token (PStr "tok")) ∧
  (poll Sample.no_callbacks Sample.pinged [Sample.error_response "expired_token"]).2
    = Raised (ServerError (Verbatim (PStr "expired_token"))) ∧
  (async_poll Sample.no_callbacks Sample.pinged [Sample.error_response "expired_token"]).2
    = Raised (ServerError
        (Interpolated "The server returned the following error: " (PStr "expired_token"))).
Proof. repeat split; by vm_compute. Qed.

(** C6. A device-authorization response without [verification_uri] and
    without [verification_url] does not make [ping] fail: it returns and
    stores a [LoctocatAuthInfo] whose [verification_uri] is [None]. *)
Theorem ping_stores_auth_info_without_verification_uri :
  Sample.no_verification_response !! "verification_uri" = None ∧
  Sample.no_verification_response !! "verification_url" = None ∧
  ∃ ai,
    ping Sample.app Sample.no_verification_response =
      (set_auth_info Sample.app (Some ai),
       [Post (prepare_request_uri (_dc Sample.app) (auth_url Sample.app) None)], inr ai) ∧
    auth_info (set_auth_info Sample.app (Some ai)) = Some ai ∧
    verification_uri ai = PNone.
Proof.
  split; [by vm_compute|]. split; [by vm_compute|].
  exists (mkAuthInfo (PStr "dev-1") (PStr "ABCD-1234") PNone (PInt 900) (PInt 5)).
  repeat split; by vm_compute.
Qed.

(** C5 does not hold as stated: with both spellings present and an empty
    [verification_uri], the [LoctocatAuthInfo] takes [verification_url]. *)
Lemma ping_empty_verification_uri_takes_url :
  Sample.empty_uri_response !! "verification_uri" = Some (PStr "") ∧
  Sample.empty_uri_response !! "verification_url"
    = Some (PStr "https://auth.example/activate") ∧
  (∀ k, k ∈ ["device_code"; "user_code"; "expires_in"; "interval"] →
        is_Some (Sample.empty_uri_response !! k)) ∧
  ∃ ai,
    (ping Sample.app Sample.empty_uri_response).2 = inr ai ∧
    verification_uri ai = PStr "https://auth.example/activate" ∧
    Some (verification_uri ai) ≠ Sample.empty_uri_response !! "verification_uri".
Proof.
  split; [by vm_compute|]. split; [by vm_compute|]. split.
  - intros k Hk.
    repeat (apply elem_of_cons in Hk as [->|Hk]; [eexists; vm_compute; reflexivity|]).
    by apply elem_of_nil in Hk.
  - exists (mkAuthInfo (PStr "dev-1") (PStr "ABCD-1234")
              (PStr "https://auth.example/activate") (PInt 900) (PInt 5)).
    split; [by vm_compute|]. split; [done|]. by vm_compute.
Qed.

(** C9 does not hold as stated: after a handler action has stored an
    [auth_info] with device code ["dev-2"], the next request of the same
    [poll] call still carries ["dev-1"]. *)
Lemma poll_keeps_first_device_code :
  let self := attach_handler Sample.pinged Sample.rotate in
  ∃ self1 tr1 ai1 u,
    poll Sample.rotating_callbacks self [Sample.error_response "rotate"]
      = (self1, tr1, Pending) ∧
    auth_info self1 = Some ai1 ∧
    device_code ai1 = PStr "dev-2" ∧
    (poll Sample.rotating_callbacks self
       [Sample.error_response "rotate"; Sample.token_response "tok"]).1.2
      = tr1 ++ [Post u] ∧
    uri_device_code u = Some (PStr "dev-1") ∧
    u ≠ token_request self1 ai1.
Proof.
  eexists _, _, _, _. split; [by vm_compute|]. split; [done|].
  split; [done|]. split; [by vm_compute|]. split; [done|]. by vm_compute.
Qed.

(** ** The theorems at work *)

Lemma poll_silent_stop_iff_witness :
  ∃ self' tr,
    poll Sample.no_callbacks (attach_handler Sample.pinged Sample.deny)
      [Sample.error_response "authorization_pending";
       Sample.error_response "access_denied";
       Sample.token_response "tok"]
    = (self', tr, SilentStop).
Proof.
  eexists _, _.
  apply (proj2 (poll_silent_stop_iff Sample.no_callbacks _ _ _ _)).
  eexists _, [Sample.error_response "authorization_pending"],
    (Sample.error_response "access_denied"), [Sample.token_response "tok"], _, _,
    Sample.deny.
  split; [by vm_compute|]. split; [done|]. split; [by vm_compute|].
  split; [by vm_compute|]. split; [by vm_compute|]. split; [done|].
  split; [done|]. split; by vm_compute.
Defined.

Lemma unhandled_error_is_fatal_witness :
  contains (Sample.error_response "expired_token") "error" = true ∧
  find_handler (_handlers Sample.pinged) (get (Sample.error_response "expired_token") "error")
    = None ∧
  (poll Sample.no_callbacks Sample.pinged
     [Sample.error_response "authorization_pending";
      Sample.error_response "expired_token"; Sample.token_response "tok"]).2
    = Raised (ServerError (Verbatim (PStr "expired_token"))) ∧
  (async_poll Sample.no_callbacks Sample.pinged
     [Sample.error_response "authorization_pending";
      Sample.error_response "expired_token"; Sample.token_response "tok"]).2
    = Raised (ServerError
        (Interpolated "The server returned the following error: " (PStr "expired_token"))).
Proof.
  assert (contains (Sample.error_response "expired_token") "error" = true) as Herr
    by by vm_compute.
  assert (find_handler (_handlers Sample.pinged)
            (get (Sample.error_response "expired_token") "error") = None) as Hfind
    by by vm_compute.
  split; [done|]. split; [done|].
  destruct (unhandled_error_is_fatal Sample.no_callbacks Sample.pinged
              [Sample.error_response "authorization_pending"]
              (Sample.error_response "expired_token") [Sample.token_response "tok"]
              Sample.pinged
              [Post (prepare_request_uri (_dc Sample.pinged) (token_url Sample.pinged)
                       (Some (PStr "dev-1"))); Sleep 5]
              Herr Hfind) as [Hsync Hasync].
  split.
  - destruct Hsync as (ai & _ & Hrun); [by vm_compute|]. exact (f_equal snd Hrun).
  - destruct Hasync as (ai & _ & Hrun); [by vm_compute|]. exact (f_equal snd Hrun).
Defined.

Lemma ping_builds_auth_info_witness :
  is_secure_transport (auth_url Sample.app) = true ∧
  ∃ ai,
    (ping Sample.app Sample.device_response).2 = inr ai ∧
    device_code ai = PStr "dev-1" ∧
    verification_uri ai = PStr "https://auth.example/activate".
Proof.
  split; [by vm_compute|].
  destruct (ping_builds_auth_info Sample.app Sample.device_response
              (PStr "dev-1") (PStr "ABCD-1234") (PInt 900) (PInt 5))
    as (ai & Hping & _ & Hdc & _ & _ & _ & Huri & _);
    [by vm_compute | by vm_compute | by vm_compute | by vm_compute | by vm_compute
    | left; eexists; by vm_compute |].
  exists ai. split; [by rewrite Hping|]. split; [done|].
  apply Huri; by vm_compute.
Defined.

Lemma attach_handler_last_write_wins_witness :
  let first := mkHandler "slow_down" (callback 7) true in
  let second := mkHandler "slow_down" (callback 8) false in
  let self' := attach_handler (attach_handler Sample.app first) second in
  find_handler (get_handlers self') (PStr "slow_down") = Some second ∧
  filter (λ h, error h = "slow_down") (get_handlers self') = [second].
Proof.
  intros first second self'.
  apply (attach_handler_last_write_wins "my-client" "https://auth.example/device/code"
           "https://auth.example/token" None 5 [] [] first second).
  reflexivity.
Defined.

Lemma poll_before_ping_witness :
  auth_info Sample.app = None ∧
  poll Sample.no_callbacks Sample.app [Sample.token_response "tok"]
    = (Sample.app, [], Raised (AttributeError "device_code")).
Proof.
  split; [reflexivity|].
  apply (poll_before_ping Sample.no_callbacks Sample.app [Sample.token_response "tok"]).
  reflexivity.
Defined.

Lemma poll_requests_fixed_at_entry_witness :
  let self := attach_handler Sample.pinged Sample.rotate in
  let tr := (poll Sample.rotating_callbacks self
               [Sample.error_response "rotate"; Sample.token_response "tok"]).1.2 in
  ∃ ai u,
    auth_info self = Some ai ∧
    last tr = Some (Post u) ∧
    u = token_request self ai ∧
    uri_device_code u = Some (PStr "dev-1").
Proof.
  intros self tr.
  exists (mkAuthInfo (PStr "dev-1") (PStr "ABCD-1234")
            (PStr "https://auth.example/activate") (PInt 900) (PInt 5)).
  exists (prepare_request_uri (_dc self) (token_url self) (Some (PStr "dev-1"))).
  split; [reflexivity|]. split; [by vm_compute|]. split; [|reflexivity].
  apply (poll_requests_fixed_at_entry Sample.rotating_callbacks self _
           [Sample.error_response "rotate"; Sample.token_response "tok"]);
    [reflexivity|].
  vm_compute. apply list_elem_of_here.
Defined.

Lemma authenticate_silent_stop_as_success_witness :
  let opts := mkOptions true None true None true None in
  let self := attach_handler Sample.app Sample.deny in
  ∃ self' tr,
    authenticate Sample.no_callbacks opts self Sample.device_response
      [Sample.error_response "access_denied"] = (self', tr, Return PNone) ∧
    SpinnerSucceed (mkHalo "Waiting for authentication..." "dots")
      (Some "Authentication successful!") ∈ tr.
Proof.
  intros opts self.
  destruct (authenticate_silent_stop_as_success Sample.no_callbacks opts self
              Sample.device_response
              (mkAuthInfo (PStr "dev-1") (PStr "ABCD-1234")
                 (PStr "https://auth.example/activate") (PInt 900) (PInt 5))
              (ping self Sample.device_response).1.1
              (ping self Sample.device_response).1.2
              [Sample.error_response "access_denied"]
              (ping self Sample.device_response).1.1
              [Post (prepare_request_uri (_dc self) (token_url self) (Some (PStr "dev-1")))])
    as (shown & Hrun & _ & _); [by vm_compute..|].
  eexists _, _. split; [exact Hrun|].
  apply elem_of_app. right. apply elem_of_app. left. vm_compute. apply list_elem_of_here.
Defined.

(** * Further properties *)

(** ** The registry, other codes and sizes *)

Section RegistryFrame.

Implicit Types (hs : list Handler) (h : Handler) (c : string) (self : Authenticator).

Lemma find_handler_remove_first_other hs c c' :
  c ≠ c' → find_handler (remove_first hs c') (PStr c) = find_handler hs (PStr c).
Proof.
  intros Hne. induction hs as [|h hs IH]; [done|].
  cbn [remove_first find_handler str_eq].
  destruct (String.eqb (error h) c') eqn:E'.
  - apply String.eqb_eq in E'.
    destruct (String.eqb (error h) c) eqn:E; [|done].
    apply String.eqb_eq in E. congruence.
  - cbn [find_handler str_eq]. by rewrite IH.
Qed.

Lemma filter_remove_first_other hs c :
  filter (λ h, error h ≠ c) (remove_first hs c) = filter (λ h, error h ≠ c) hs.
Proof.
  induction hs as [|h hs IH]; [done|]. cbn [remove_first].
  destruct (String.eqb (error h) c) eqn:E.
  - apply String.eqb_eq in E. by rewrite filter_cons_False by (intros ?; done).
  - apply String.eqb_neq in E. by rewrite !filter_cons_True, IH.
Qed.

Lemma length_remove_first hs c :
  length (remove_first hs c) =
  if bool_decide (c ∈ (error <$> hs)) then pred (length hs) else length hs.
Proof.
  induction hs as [|h hs IH]; [done|]. cbn [remove_first]. rewrite fmap_cons.
  destruct (String.eqb (error h) c) eqn:E.
  - apply String.eqb_eq in E. rewrite bool_decide_eq_true_2; [done|].
    subst. apply list_elem_of_here.
  - apply String.eqb_neq in E. cbn [length]. rewrite IH.
    destruct (bool_decide (c ∈ error <$> hs)) eqn:Hin.
    + apply bool_decide_eq_true_1 in Hin.
      rewrite bool_decide_eq_true_2 by by apply list_elem_of_further.
      destruct hs; [by apply elem_of_nil in Hin | done].
    + apply bool_decide_eq_false_1 in Hin.
      rewrite bool_decide_eq_false_2; [done|].
      intros [?|?]%elem_of_cons; [congruence | done].
Qed.

(** [attach_handler] touches one error code only: the handlers of every
    other code stay, in their order, the lookup of every other code gives
    what it gave, and no attribute but the registry changes. *)
Theorem attach_handler_keeps_other_codes self h :
  filter (λ h', error h' ≠ error h) (get_handlers (attach_handler self h))
    = filter (λ h', error h' ≠ error h) (get_handlers self) ∧
  (∀ c, c ≠ error h →
        find_handler (get_handlers (attach_handler self h)) (PStr c)
          = find_handler (get_handlers self) (PStr c)) ∧
  attach_handler self h = set_handlers self (get_handlers (attach_handler self h)) ∧
  auth_info (attach_handler self h) = auth_info self ∧
  poll_interval (attach_handler self h) = poll_interval self.
Proof.
  unfold attach_handler, get_handlers. simpl. split; [|split; [|done]].
  - rewrite filter_app, filter_remove_first_other.
    rewrite filter_cons_False by (intros ?; done).
    by rewrite filter_nil, app_nil_r.
  - intros c Hne. rewrite find_handler_app.
    rewrite find_handler_remove_first_other by done.
    destruct (find_handler (_handlers self) (PStr c)); [done|].
    simpl. destruct (String.eqb (error h) c) eqn:E; [|done].
    apply String.eqb_eq in E. congruence.
Qed.

(** [attach_handler] adds one entry for a code the registry does not
    have, and keeps the number of entries for a code it has. *)
Theorem attach_handler_length self h :
  length (get_handlers (attach_handler self h)) =
  if bool_decide (error h ∈ (error <$> get_handlers self))
  then length (get_handlers self)
  else S (length (get_handlers self)).
Proof.
  unfold attach_handler, get_handlers. simpl.
  rewrite length_app, length_remove_first. simpl.
  destruct (bool_decide (error h ∈ error <$> _handlers self)) eqn:Hin; [|lia].
  apply bool_decide_eq_true_1 in Hin.
  destruct (_handlers self); [by apply elem_of_nil in Hin | simpl; lia].
Qed.

(** The handler just attached is the last entry of [get_handlers]. *)
Theorem attach_handler_appends self h :
  last (get_handlers (attach_handler self h)) = Some h.
Proof. unfold attach_handler, get_handlers. simpl. apply last_snoc. Qed.

(** An error value that is not a string has no handler, whatever the
    registry holds. *)
Lemma find_handler_not_str hs (v : pyval) :
  (∀ s, v ≠ PStr s) → find_handler hs v = None.
Proof.
  intros Hv. induction hs as [|h hs IH]; [done|]. simpl.
  destruct v; try done. by destruct (Hv s).
Qed.

End RegistryFrame.

(** ** [ping], the key it reports *)

Section PingKeys.

Implicit Types (self : Authenticator) (response : dict).

(** Over https, when a subscripted key is missing from the response,
    [ping] raises [KeyError] for the first missing one in the order
    [device_code], [user_code], [expires_in], [interval], after having
    sent its request, and leaves the Authenticator, its [auth_info]
    included, as it was. *)
Theorem ping_raises_first_missing_key self response present missing later :
  is_secure_transport (auth_url self) = true →
  ["device_code"; "user_code"; "expires_in"; "interval"] = present ++ missing :: later →
  Forall (λ k, is_Some (response !! k)) present →
  response !! missing = None →
  ping self response =
    (self, [Post (prepare_request_uri (_dc self) (auth_url self) None)],
     inl (KeyError missing)).
Proof.
  intros Hsecure Hkeys Hpresent Hmissing. unfold ping, build_auth_info, subscript.
  rewrite Hsecure.
  destruct present as [|k1 [|k2 [|k3 [|k4 more]]]];
    simplify_eq/=; repeat match goal with
                          | H : Forall _ (_ :: _) |- _ => apply Forall_cons in H as [[? ?] H]
                          end;
    repeat match goal with
           | H : response !! _ = _ |- _ => rewrite H
           end; try done.
  by destruct more.
Qed.

(** Without https, [ping] raises [InsecureTransportError] before any
    request, whatever the server would answer, and [poll] does after
    reading the device code: nothing is sent and nothing changes. *)
Lemma insecure_transport_sends_nothing callbacks self response responses :
  (is_secure_transport (auth_url self) = false →
   ping self response = (self, [], inl InsecureTransportError)) ∧
  (is_secure_transport (token_url self) = false → is_Some (auth_info self) →
   poll callbacks self responses = (self, [], Raised InsecureTransportError) ∧
   async_poll callbacks self responses = (self, [], Raised InsecureTransportError)).
Proof.
  split.
  - intros Hno. unfold ping. by rewrite Hno.
  - intros Hno [ai Hai]. unfold poll, async_poll. by rewrite Hai, Hno.
Qed.

End PingKeys.

(** ** The poll loop, iteration by iteration *)

Section PollSteps.

Variable callbacks : nat → Authenticator → Authenticator * list nat * option Exn.

Implicit Types (self : Authenticator) (response : dict) (responses : list dict).
Implicit Types (uri : Uri) (tr : list Event) (o : Outcome).

Lemma contains_Some response k v : response !! k = Some v → contains response k = true.
Proof. intros H. unfold contains. by rewrite H. Qed.

Lemma contains_None response k : response !! k = None → contains response k = false.
Proof.
  intros H. unfold contains. rewrite H. apply bool_decide_eq_false_2.
  by intros [? ?].
Qed.

Lemma get_Some response k v : response !! k = Some v → get response k = v.
Proof. intros H. unfold get. by rewrite H. Qed.

(** A [poll] that is still in its loop after [before] goes on with the
    request it prepared at entry. *)
Lemma poll_resume self before rest self1 tr1 :
  poll callbacks self before = (self1, tr1, Pending) →
  ∃ ai, auth_info self = Some ai ∧
    poll callbacks self (before ++ rest) =
      emit tr1 (poll_loop callbacks (token_request self ai) self1 rest).
Proof.
  unfold poll. destruct (auth_info self) as [ai|]; [|done].
  destruct (is_secure_transport (token_url self)); [|done].
  intros Hb. exists ai. split; [done|]. by apply poll_loop_app.
Qed.

Lemma async_poll_resume self before rest self1 tr1 :
  async_poll callbacks self before = (self1, tr1, Pending) →
  ∃ ai, auth_info self = Some ai ∧
    async_poll callbacks self (before ++ rest) =
      emit tr1 (async_poll_loop callbacks (token_request self ai) self1 rest).
Proof.
  unfold async_poll. destruct (auth_info self) as [ai|]; [|done].
  destruct (is_secure_transport (token_url self)); [|done].
  intros Hb. exists ai. split; [done|]. by apply async_poll_loop_app.
Qed.

(** When the loop reaches a response without [error], both [poll]s return
    its [access_token] as it is, after that one request and without
    looking at any later response; the Authenticator is as the earlier
    iterations left it. *)
Theorem poll_returns_access_token self before response rest self1 tr1 v :
  response !! "error" = None →
  response !! "access_token" = Some v →
  (poll callbacks self before = (self1, tr1, Pending) →
   ∃ ai, auth_info self = Some ai ∧
     poll callbacks self (before ++ response :: rest) =
       (self1, tr1 ++ [Post (token_request self ai)], Token v)) ∧
  (async_poll callbacks self before = (self1, tr1, Pending) →
   ∃ ai, auth_info self = Some ai ∧
     async_poll callbacks self (before ++ response :: rest) =
       (self1, tr1 ++ [Post (token_request self ai)], Token v)).
Proof.
  intros Herr Htok. split; intros Hb.
  - destruct (poll_resume _ _ (response :: rest) _ _ Hb) as (ai & Hai & ->).
    exists ai. split; [done|]. cbn [poll_loop]. unfold subscript.
    by rewrite (contains_None _ _ Herr), Htok.
  - destruct (async_poll_resume _ _ (response :: rest) _ _ Hb) as (ai & Hai & ->).
    exists ai. split; [done|]. cbn [async_poll_loop]. unfold subscript.
    by rewrite (contains_None _ _ Herr), Htok.
Qed.

(** When the loop reaches a response that has neither [error] nor
    [access_token], both [poll]s raise [KeyError] for [access_token]. *)
Theorem poll_raises_without_access_token self before response rest self1 tr1 :
  response !! "error" = None →
  response !! "access_token" = None →
  (poll callbacks self before = (self1, tr1, Pending) →
   ∃ ai, auth_info self = Some ai ∧
     poll callbacks self (before ++ response :: rest) =
       (self1, tr1 ++ [Post (token_request self ai)], Raised (KeyError "access_token"))) ∧
  (async_poll callbacks self before = (self1, tr1, Pending) →
   ∃ ai, auth_info self = Some ai ∧
     async_poll callbacks self (before ++ response :: rest) =
       (self1, tr1 ++ [Post (token_request self ai)], Raised (KeyError "access_token"))).
Proof.
  intros Herr Htok. split; intros Hb.
  - destruct (poll_resume _ _ (response :: rest) _ _ Hb) as (ai & Hai & ->).
    exists ai. split; [done|]. cbn [poll_loop]. unfold subscript.
    by rewrite (contains_None _ _ Herr), Htok.
  - destruct (async_poll_resume _ _ (response :: rest) _ _ Hb) as (ai & Hai & ->).
    exists ai. split; [done|]. cbn [async_poll_loop]. unfold subscript.
    by rewrite (contains_None _ _ Herr), Htok.
Qed.

(** An exception raised by a handler's action leaves both [poll]s as it
    is, whatever [continue_on_error] says; what the action did before
    raising stays done. *)
Theorem poll_propagates_action_error self before response rest self1 tr1 code handler e :
  response !! "error" = Some code →
  find_handler (_handlers self1) code = Some handler →
  raised (run_action callbacks (action handler) self1) = Some e →
  let r := run_action callbacks (action handler) self1 in
  (poll callbacks self before = (self1, tr1, Pending) →
   ∃ ai, auth_info self = Some ai ∧
     poll callbacks self (before ++ response :: rest) =
       (after r, tr1 ++ Post (token_request self ai) :: did r, Raised e)) ∧
  (async_poll callbacks self before = (self1, tr1, Pending) →
   ∃ ai, auth_info self = Some ai ∧
     async_poll callbacks self (before ++ response :: rest) =
       (after r, tr1 ++ Post (token_request self ai) :: did r, Raised e)).
Proof.
  intros Herr Hfind Hraised r. split; intros Hb.
  - destruct (poll_resume _ _ (response :: rest) _ _ Hb) as (ai & Hai & ->).
    exists ai. split; [done|]. cbn [poll_loop].
    by rewrite (contains_Some _ _ _ Herr), (get_Some _ _ _ Herr), Hfind, Hraised.
  - destruct (async_poll_resume _ _ (response :: rest) _ _ Hb) as (ai & Hai & ->).
    exists ai. split; [done|]. cbn [async_poll_loop].
    by rewrite (contains_Some _ _ _ Herr), (get_Some _ _ _ Herr), Hfind, Hraised.
Qed.

(** An [error] value that is not a string (a number, [null], a list, ...)
    is never handled: whatever the registry holds, [poll] raises
    [ServerError] with that value. *)
Theorem poll_error_not_a_string self before response rest self1 tr1 code :
  response !! "error" = Some code →
  (∀ s, code ≠ PStr s) →
  poll callbacks self before = (self1, tr1, Pending) →
  ∃ ai, auth_info self = Some ai ∧
    poll callbacks self (before ++ response :: rest) =
      (self1, tr1 ++ [Post (token_request self ai)],
       Raised (ServerError (Verbatim code))).
Proof.
  intros Herr Hcode Hb.
  destruct (poll_resume _ _ (response :: rest) _ _ Hb) as (ai & Hai & ->).
  exists ai. split; [done|]. cbn [poll_loop].
  rewrite (contains_Some _ _ _ Herr), (get_Some _ _ _ Herr).
  by rewrite (find_handler_not_str _ _ Hcode).
Qed.

End PollSteps.

(** ** Whole runs of the poll loop *)

Section PollRuns.

Variable callbacks : nat → Authenticator → Authenticator * list nat * option Exn.

Implicit Types (self : Authenticator) (response : dict) (responses : list dict).
Implicit Types (uri : Uri) (tr : list Event) (o : Outcome).

Lemma run_action_default (a : Action) self :
  is_default a = true → after (run_action callbacks a self) = self.
Proof.
  destruct a as [| |id]; simpl; [|done..].
  intros _. destruct (auth_info self) as [ai|]; [|done].
  by destruct (time_sleep (interval ai)).
Qed.

Lemma requests_did (a : Action) self :
  requests (did (run_action callbacks a self)) = [].
Proof.
  destruct a as [| |id]; simpl.
  - destruct (auth_info self) as [ai|]; [|done]. unfold time_sleep.
    destruct (interval ai) as [|b|n| | |]; try done.
    destruct (Z.abs n >? sleep_limit)%Z; [done|]. by destruct (n <? 0)%Z.
  - done.
  - destruct (callbacks id self) as [[self' tags] e]. simpl.
    unfold requests. induction tags as [|tag tags IH]; [done|]. by rewrite fmap_cons.
Qed.

Lemma requests_app tr tr' : requests (tr ++ tr') = requests tr ++ requests tr'.
Proof. apply omap_app. Qed.

(** The waiting of the default handler.  With an https token endpoint,
    a handler for ["authorization_pending"] whose action is the default
    one and which continues, and in the held [auth_info] an integer
    [interval] that [time.sleep] accepts (from 0 to [sleep_limit]), a run
    of pending responses followed by a success costs one request per
    response, with a pause of [interval] seconds after each pending one;
    both [poll]s then return the token and leave the Authenticator as it
    was. *)
Theorem poll_waits_while_pending self ai k handler pendings response rest v :
  is_secure_transport (token_url self) = true →
  auth_info self = Some ai →
  interval ai = PInt k →
  (0 ≤ k ≤ sleep_limit)%Z →
  find_handler (_handlers self) (PStr "authorization_pending") = Some handler →
  action handler = sleep_interval →
  continue_on_error handler = true →
  Forall (λ r : dict, r !! "error" = Some (PStr "authorization_pending")) pendings →
  response !! "error" = None →
  response !! "access_token" = Some v →
  let u := token_request self ai in
  let tr := concat ((λ _, [Post u; Sleep k]) <$> pendings) ++ [Post u] in
  poll callbacks self (pendings ++ response :: rest) = (self, tr, Token v) ∧
  async_poll callbacks self (pendings ++ response :: rest) = (self, tr, Token v).
Proof.
  intros Hsecure Hai Hiv Hk Hfind Hact Hcont Hpend Herr Htok u tr.
  assert (run_action callbacks sleep_interval self = mkRan self [Sleep k] None) as Hrun.
  { simpl. rewrite Hai, Hiv. simpl.
    assert ((Z.abs k >? sleep_limit)%Z = false) as ->.
    { rewrite Z.gtb_ltb. apply Z.ltb_ge. lia. }
    by rewrite (proj2 (Z.ltb_ge k 0)) by lia. }
  unfold poll, async_poll. rewrite Hai, Hsecure. fold u. subst tr.
  induction Hpend as [|r pendings Hr Hpend IH].
  - cbn [app fmap list_fmap concat poll_loop async_poll_loop]. unfold subscript.
    by rewrite (contains_None _ _ Herr), Htok.
  - cbn [app poll_loop async_poll_loop]. rewrite fmap_cons.
    rewrite (contains_Some _ _ _ Hr), (get_Some _ _ _ Hr), Hfind, Hact, Hrun, Hcont.
    cbn [raised after did]. destruct IH as [-> ->]. done.
Qed.

(** When the default action cannot sleep, the loop ends with the
    exception of [time.sleep]: [OverflowError] for an integer [interval]
    beyond [sleep_limit] either way, [ValueError] for a negative one
    within, [TypeError] for one that is no number. *)
Theorem poll_pending_rejects_interval
    self before response rest self1 tr1 ai1 handler :
  poll callbacks self before = (self1, tr1, Pending) →
  response !! "error" = Some (PStr (error handler)) →
  find_handler (_handlers self1) (PStr (error handler)) = Some handler →
  action handler = sleep_interval →
  auth_info self1 = Some ai1 →
  ∃ ai, auth_info self = Some ai ∧
    (∀ k, interval ai1 = PInt k → (sleep_limit < Z.abs k)%Z →
       poll callbacks self (before ++ response :: rest) =
         (self1, tr1 ++ [Post (token_request self ai)], Raised OverflowError)) ∧
    (∀ k, interval ai1 = PInt k → (- sleep_limit ≤ k < 0)%Z →
       poll callbacks self (before ++ response :: rest) =
         (self1, tr1 ++ [Post (token_request self ai)], Raised ValueError)) ∧
    ((∀ k, interval ai1 ≠ PInt k) → (∀ b, interval ai1 ≠ PBool b) →
       poll callbacks self (before ++ response :: rest) =
         (self1, tr1 ++ [Post (token_request self ai)], Raised TypeError)).
Proof.
  intros Hb Herr Hfind Hact Hai1.
  destruct (poll_resume callbacks _ _ (response :: rest) _ _ Hb) as (ai & Hai & ->).
  exists ai. split; [done|]. cbn [poll_loop].
  rewrite (contains_Some _ _ _ Herr), (get_Some _ _ _ Herr), Hfind, Hact.
  simpl. rewrite Hai1. split; [|split].
  - intros k -> Hbig. simpl.
    by rewrite (proj2 (Z.gtb_gt (Z.abs k) sleep_limit)) by lia.
  - intros k -> Hneg. simpl.
    assert ((Z.abs k >? sleep_limit)%Z = false) as ->.
    { rewrite Z.gtb_ltb. apply Z.ltb_ge. lia. }
    by rewrite (proj2 (Z.ltb_lt k 0)) by lia.
  - intros Hint Hbool. destruct (interval ai1) as [|b|k| | |]; try done.
    + by destruct (Hbool b).
    + by destruct (Hint k).
Qed.

(** With default actions only in the registry, neither [poll] changes the
    Authenticator, whatever the responses: [poll_interval], [auth_info]
    and the registry are as before. *)
Theorem poll_keeps_authenticator self responses :
  Forall (λ h, is_default (action h) = true) (get_handlers self) →
  (poll callbacks self responses).1.1 = self ∧
  (async_poll callbacks self responses).1.1 = self.
Proof.
  intros Hdef. unfold poll, async_poll, get_handlers in *.
  destruct (auth_info self) as [ai|]; [|done].
  destruct (is_secure_transport (token_url self)); [|done].
  generalize (prepare_request_uri (_dc self) (token_url self) (Some (device_code ai))).
  intros uri.
  assert (∀ code h, find_handler (_handlers self) code = Some h →
            after (run_action callbacks (action h) self) = self) as Hkeep.
  { intros code h [Hin _]%find_handler_Some. apply run_action_default.
    by apply (proj1 (Forall_forall _ _) Hdef). }
  induction responses as [|response rest [IHs IHa]]; [done|].
  cbn [poll_loop async_poll_loop].
  destruct (contains response "error").
  - destruct (find_handler _ _) as [h|] eqn:Hfind; [|done].
    rewrite (Hkeep _ _ Hfind).
    destruct (raised _); [done|]. split.
    + destruct (continue_on_error h); [|done].
      destruct (poll_loop _ _ _ rest) as [[??]?]. exact IHs.
    + destruct (async_poll_loop _ _ _ rest) as [[??]?]. exact IHa.
  - by destruct (subscript response "access_token").
Qed.

Lemma poll_loop_async uri self responses self' tr o :
  poll_loop callbacks uri self responses = (self', tr, o) →
  o ≠ SilentStop → (∀ arg, o ≠ Raised (ServerError arg)) →
  async_poll_loop callbacks uri self responses = (self', tr, o).
Proof.
  revert self tr. induction responses as [|response rest IH]; intros self tr; [done|].
  cbn [poll_loop async_poll_loop]. intros Hrun Hstop Hserver.
  destruct (contains response "error").
  - destruct (find_handler _ _) as [h|].
    + destruct (raised _); [done|].
      destruct (continue_on_error h).
      * apply emit_inv in Hrun as (tr' & Hrun & ->).
        by rewrite (IH _ _ Hrun).
      * by simplify_eq.
    + simplify_eq. by destruct (Hserver (Verbatim (get response "error"))).
  - done.
Qed.

(** Where the two [poll]s agree.  Whenever [Authenticator.poll] ends
    with a token, is still waiting when the responses are used up, or
    raises anything but [ServerError], [AsyncAuthenticator.poll] does
    exactly the same on the same responses: same requests, same pauses,
    same Authenticator afterwards. *)
Theorem async_poll_follows_poll self responses self' tr o :
  poll callbacks self responses = (self', tr, o) →
  o ≠ SilentStop →
  (∀ arg, o ≠ Raised (ServerError arg)) →
  async_poll callbacks self responses = (self', tr, o).
Proof.
  unfold poll, async_poll. destruct (auth_info self); [|done].
  destruct (is_secure_transport (token_url self)); [apply poll_loop_async | by intros].
Qed.

Lemma poll_loop_requests uri self responses :
  ∃ n, requests (poll_loop callbacks uri self responses).1.2 = replicate n uri ∧
    (n ≤ length responses)%nat ∧
    ((poll_loop callbacks uri self responses).2 = Pending → n = length responses) ∧
    ((poll_loop callbacks uri self responses).2 ≠ Pending → (1 ≤ n)%nat).
Proof.
  revert self. induction responses as [|response rest IH]; intros self.
  - exists 0. by simpl.
  - cbn [poll_loop].
    assert (∀ (s : Authenticator) (evs : list Event) o, o ≠ Pending → requests evs = [] →
              ∃ n, requests (s, Post uri :: evs, o).1.2 = replicate n uri ∧
                (n ≤ length (response :: rest))%nat ∧
                ((s, Post uri :: evs, o).2 = Pending → n = length (response :: rest)) ∧
                ((s, Post uri :: evs, o).2 ≠ Pending → (1 ≤ n)%nat)) as Hend.
    { intros s evs o Ho Hevs. exists 1. simpl. unfold requests in *. simpl.
      rewrite Hevs. split; [done|]. split; [lia|]. split; [done | lia]. }
    destruct (contains response "error").
    + destruct (find_handler _ _) as [h|]; [|by apply Hend].
      pose proof (requests_did (action h) self) as Hdid.
      destruct (raised _); [by apply Hend|].
      destruct (continue_on_error h); [|by apply Hend].
      destruct (IH (after (run_action callbacks (action h) self)))
        as (n & Hreq & Hle & Hpending & Hended).
      destruct (poll_loop _ _ _ rest) as [[s t] o]. simpl in *.
      exists (S n). unfold requests in *. simpl.
      rewrite omap_app, Hdid, Hreq. simpl.
      split; [done|]. split; [lia|]. split; [intros ?; f_equal; auto | intros ?; lia].
    + destruct (subscript response "access_token"); by apply Hend.
Qed.

(** One request per response.  With an https token endpoint and an
    [auth_info], all requests of a [poll] call are the request prepared
    at entry; there is at most one per scripted response, exactly one per
    response while the loop goes on, and at least one before [poll] ends
    in any way. *)
Theorem poll_one_request_per_response self ai responses :
  is_secure_transport (token_url self) = true →
  auth_info self = Some ai →
  ∃ n, requests (poll callbacks self responses).1.2 = replicate n (token_request self ai) ∧
    (n ≤ length responses)%nat ∧
    ((poll callbacks self responses).2 = Pending → n = length responses) ∧
    ((poll callbacks self responses).2 ≠ Pending → (1 ≤ n)%nat).
Proof.
  intros Hsecure Hai. unfold poll. rewrite Hai, Hsecure. apply poll_loop_requests.
Qed.

End PollRuns.

(** ** [authenticate], all the ways out *)

Section AuthenticatePaths.

Variable callbacks : nat → Authenticator → Authenticator * list nat * option Exn.

Implicit Types (self : Authenticator) (opts : Options) (tr : list Event).

Lemma prompt_after_ping opts self response self1 tr1 ai :
  ping self response = (self1, tr1, inr ai) →
  prompt opts self1 =
    inr (if use_default_message opts && negb (given (message opts))
         then [Console (DefaultPrompt (verification_uri ai) (user_code ai))]
         else if given (message opts) then [Console (Text (default "" (message opts)))]
         else []).
Proof.
  intros ->%ping_returned. unfold prompt. simpl.
  destruct (use_default_message opts && negb (given (message opts))); [done|].
  by destruct (given (message opts)).
Qed.

(** Over https, a device-authorization response that lacks
    [device_code], [user_code], [expires_in] or [interval] makes
    [authenticate] raise [KeyError] right after the first request: nothing
    is shown, no spinner starts, the token endpoint is not asked, and the
    Authenticator is unchanged. *)
Theorem authenticate_raises_on_missing_key opts self device_response token_responses k :
  is_secure_transport (auth_url self) = true →
  k ∈ ["device_code"; "user_code"; "expires_in"; "interval"] →
  device_response !! k = None →
  ∃ k',
    authenticate callbacks opts self device_response token_responses =
      (self, [Post (prepare_request_uri (_dc self) (auth_url self) None)],
       Raise (KeyError k')) ∧
    async_authenticate callbacks opts self device_response token_responses =
      (self, [Post (prepare_request_uri (_dc self) (auth_url self) None)],
       Raise (KeyError k')).
Proof.
  intros Hsecure Hk Hmiss.
  destruct (ping_missing_key self device_response k Hsecure Hk Hmiss) as [k' Hping].
  exists k'. unfold authenticate, async_authenticate. by rewrite Hping.
Qed.

Lemma consoles_app (tr tr' : list Event) : consoles (tr ++ tr') = consoles tr ++ consoles tr'.
Proof. apply omap_app. Qed.

Lemma consoles_printed (ps : list Printed) : consoles (Console <$> ps) = ps.
Proof.
  induction ps as [|p ps IH]; [done|].
  rewrite fmap_cons. change (p :: consoles (Console <$> ps) = p :: ps). by rewrite IH.
Qed.

Lemma consoles_did (a : Action) self :
  consoles (did (run_action callbacks a self)) = [].
Proof.
  destruct a as [| |id]; simpl.
  - destruct (auth_info self) as [ai|]; [|done]. unfold time_sleep.
    destruct (interval ai) as [|b|n| | |]; try done.
    destruct (Z.abs n >? sleep_limit)%Z; [done|]. by destruct (n <? 0)%Z.
  - done.
  - destruct (callbacks id self) as [[self' tags] e]. simpl.
    unfold consoles. induction tags as [|tag tags IH]; [done|]. by rewrite fmap_cons.
Qed.

Lemma consoles_poll_loop uri self (responses : list dict) :
  consoles (poll_loop callbacks uri self responses).1.2 = [].
Proof.
  revert self. induction responses as [|response rest IH]; intros self; [done|].
  cbn [poll_loop].
  destruct (contains response "error").
  - destruct (find_handler _ _) as [h|]; [|done].
    pose proof (consoles_did (action h) self) as Hdid.
    destruct (raised _); [done|].
    destruct (continue_on_error h); [|done].
    specialize (IH (after (run_action callbacks (action h) self))).
    destruct (poll_loop _ _ _ rest) as [[s t] o]. simpl in *.
    unfold consoles in *. simpl. by rewrite omap_app, Hdid, IH.
  - by destruct (subscript response "access_token").
Qed.

Lemma consoles_poll self (responses : list dict) :
  consoles (poll callbacks self responses).1.2 = [].
Proof.
  unfold poll. destruct (auth_info self); [|done].
  destruct (is_secure_transport (token_url self)); [|done].
  apply consoles_poll_loop.
Qed.

Lemma consoles_spinner opts :
  consoles (spinner_enter (chosen_spinner opts)) = [] ∧
  consoles (announce opts) = [] ∧
  consoles (spinner_exit (chosen_spinner opts)).1 = [].
Proof.
  unfold announce.
  destruct (chosen_spinner opts); simpl;
    destruct (use_default_success_message opts && negb (given (success_message opts)));
    try destruct (given (success_message opts)); done.
Qed.

(** What [authenticate] prints.  After a successful [ping] it prints at
    most one thing, right after the request of [ping] and before anything
    else happens: a non-empty [message] if given, whatever
    [use_default_message] says; without one the default prompt, carrying
    the [verification_uri] and the [user_code] that [ping] has just
    returned, if [use_default_message]; and nothing otherwise.  Nothing
    else is printed in the whole call. *)
Theorem authenticate_prompt opts self device_response token_responses self1 tr1 ai :
  ping self device_response = (self1, tr1, inr ai) →
  let printed :=
    match message opts with
    | Some m =>
        if negb (String.eqb m "") then [Text m]
        else if use_default_message opts
             then [DefaultPrompt (verification_uri ai) (user_code ai)]
             else []
    | None =>
        if use_default_message opts
        then [DefaultPrompt (verification_uri ai) (user_code ai)]
        else []
    end in
  let tr := (authenticate callbacks opts self device_response token_responses).1.2 in
  consoles tr = printed ∧
  ∃ later, tr = tr1 ++ (Console <$> printed) ++ later ∧ consoles later = [].
Proof.
  intros Hping printed tr.
  assert (consoles tr1 = []) as Htr1.
  { revert Hping. unfold ping. destruct (is_secure_transport (auth_url self)); [|done].
    destruct (build_auth_info device_response); by intros [= _ <- _]. }
  assert (prompt opts self1 = inr (Console <$> printed)) as Hshown.
  { rewrite (prompt_after_ping opts _ _ _ _ _ Hping). subst printed.
    destruct (message opts) as [m|]; unfold given; simpl.
    - destruct (String.eqb m ""); simpl.
      + rewrite andb_true_r. by destruct (use_default_message opts).
      + by rewrite andb_false_r.
    - rewrite andb_true_r. by destruct (use_default_message opts). }
  pose proof (consoles_printed printed) as Hprinted.
  destruct (consoles_spinner opts) as (Henter & Hannounce & Hexit).
  pose proof (consoles_poll self1 token_responses) as Hpoll.
  assert (∃ later, tr = tr1 ++ (Console <$> printed) ++ later ∧ consoles later = [])
    as (later & Htr & Hlater).
  { subst tr. unfold authenticate. rewrite Hping, Hshown.
    destruct (poll callbacks self1 token_responses) as [[self2 tr2] o].
    simpl in Hpoll. destruct (result_of o); simpl.
    - eexists. rewrite <- !app_assoc. split; [reflexivity|].
      by rewrite !consoles_app, Henter, Hpoll, Hannounce, Hexit.
    - destruct (spinner_exit (chosen_spinner opts)) as [evs swallowed]. simpl in *.
      eexists. rewrite <- !app_assoc. split; [reflexivity|].
      by rewrite !consoles_app, Henter, Hpoll, Hexit.
    - eexists. split; [reflexivity|].
      by rewrite !consoles_app, Henter, Hpoll. }
  split; [|by exists later].
  by rewrite Htr, !consoles_app, Htr1, Hprinted, Hlater, app_nil_r.
Qed.

(** With a spinner (the default one or the caller's), an exception of
    [poll] leaves [authenticate] unchanged; the spinner is stopped and
    not marked as succeeded. *)
Theorem authenticate_raises_with_spinner
    opts self device_response ai self1 tr1 token_responses self2 tr2 e h :
  ping self device_response = (self1, tr1, inr ai) →
  poll callbacks self1 token_responses = (self2, tr2, Raised e) →
  chosen_spinner opts = Some h →
  ∃ shown,
    prompt opts self1 = inr shown ∧
    authenticate callbacks opts self device_response token_responses =
      (self2, (tr1 ++ shown ++ [SpinnerStart h] ++ tr2) ++ [SpinnerStop h], Raise e).
Proof.
  intros Hping Hpoll Hsp. eexists. split; [exact (prompt_after_ping opts _ _ _ _ _ Hping)|].
  unfold authenticate.
  by rewrite Hping, (prompt_after_ping opts _ _ _ _ _ Hping), Hpoll, Hsp.
Qed.

(** Without a spinner ([use_default_spinner=False] and no [spinner]),
    the [__exit__] of [_Spinner] returns the [_Spinner] itself, which is
    truthy: an exception of [poll] does not leave [authenticate], which
    returns [None] instead. *)
Theorem authenticate_swallows_without_spinner
    opts self device_response ai self1 tr1 token_responses self2 tr2 e :
  ping self device_response = (self1, tr1, inr ai) →
  poll callbacks self1 token_responses = (self2, tr2, Raised e) →
  use_default_spinner opts = false →
  spinner opts = None →
  ∃ shown,
    prompt opts self1 = inr shown ∧
    authenticate callbacks opts self device_response token_responses =
      (self2, tr1 ++ shown ++ tr2, Return PNone).
Proof.
  intros Hping Hpoll Hdefault Hnone. eexists. split; [exact (prompt_after_ping opts _ _ _ _ _ Hping)|].
  unfold authenticate.
  rewrite Hping, (prompt_after_ping opts _ _ _ _ _ Hping), Hpoll.
  unfold chosen_spinner. rewrite Hdefault, Hnone. simpl. by rewrite app_nil_r.
Qed.

Lemma authenticate_posts opts self device_response token_responses u :
  Post u ∈ (authenticate callbacks opts self device_response token_responses).1.2 →
  u = prepare_request_uri (_dc self) (auth_url self) None ∨
  ∃ ai, (ping self device_response).2 = inr ai ∧ u = token_request self ai.
Proof.
  unfold authenticate.
  destruct (ping self device_response) as [[self1 tr1] pinged] eqn:Hping.
  assert (Post u ∈ tr1 → u = prepare_request_uri (_dc self) (auth_url self) None) as Hfirst.
  { revert Hping. unfold ping.
    destruct (is_secure_transport (auth_url self));
      [|by intros [= <- <- <-] []%elem_of_nil].
    destruct (build_auth_info device_response);
      intros [= <- <- <-]; by intros [[= ->]|[]%elem_of_nil]%elem_of_cons. }
  destruct pinged as [e|ai]; [by left; apply Hfirst|].
  rewrite (prompt_after_ping opts _ _ _ _ _ Hping).
  set (shown := if use_default_message opts && negb (given (message opts)) then _ else _).
  assert (Post u ∉ shown) as Hshown.
  { subst shown.
    destruct (use_default_message opts && negb (given (message opts)));
      [|destruct (given (message opts))];
      try apply not_elem_of_nil; by intros [?|[]%elem_of_nil]%elem_of_cons. }
  destruct (poll callbacks self1 token_responses) as [[self2 tr2] o] eqn:Hpoll.
  set (sp := chosen_spinner opts).
  assert (Post u ∉ spinner_enter sp) as Henter.
  { destruct sp; simpl; [|apply not_elem_of_nil]. by intros [?|[]%elem_of_nil]%elem_of_cons. }
  assert (Post u ∉ (spinner_exit sp).1) as Hexit.
  { destruct sp; simpl; [|apply not_elem_of_nil]. by intros [?|[]%elem_of_nil]%elem_of_cons. }
  assert (Post u ∉ announce opts) as Hannounce.
  { unfold announce. fold sp.
    destruct (use_default_success_message opts && negb (given (success_message opts)));
      [|destruct (given (success_message opts))];
      (destruct sp; simpl; [|apply not_elem_of_nil]);
      by intros [?|[]%elem_of_nil]%elem_of_cons. }
  assert (Post u ∈ tr2 → ∃ ai', (inr ai : Exn + LoctocatAuthInfo) = inr ai'
                                 ∧ u = token_request self ai') as Hsecond.
  { intros Hin. exists ai. split; [done|].
    pose proof (ping_returned _ _ _ _ _ Hping) as ->.
    unfold poll in Hpoll. cbn [auth_info set_auth_info token_url _dc] in Hpoll.
    destruct (is_secure_transport (token_url self)).
    - apply (poll_loop_posts callbacks (token_request self ai)
               (set_auth_info self (Some ai)) token_responses u).
      unfold token_request. by rewrite Hpoll.
    - simplify_eq. by apply elem_of_nil in Hin. }
  assert (Post u ∈ tr1 ++ shown ++ spinner_enter sp ++ tr2 →
          u = prepare_request_uri (_dc self) (auth_url self) None ∨
          ∃ ai', (inr ai : Exn + LoctocatAuthInfo) = inr ai' ∧ u = token_request self ai')
    as Hbefore.
  { intros [H|[H|[H|H]%elem_of_app]%elem_of_app]%elem_of_app;
      [left; auto | by destruct Hshown | by destruct Henter | right; auto]. }
  destruct (result_of o); cbn [fst snd].
  - intros [H|[H|H]%elem_of_app]%elem_of_app;
      [by apply Hbefore | by destruct Hannounce | by destruct Hexit].
  - destruct (spinner_exit sp) as [evs swallowed]. cbn [fst snd] in *.
    intros [H|H]%elem_of_app; [by apply Hbefore | by destruct Hexit].
  - apply Hbefore.
Qed.

(** [authenticate] sends two kinds of request only: the one of [ping], to
    the authorization endpoint, and the token request for the device code
    that [ping] returned in this very call. *)
Theorem authenticate_requests opts self device_response token_responses u :
  Post u ∈ (authenticate callbacks opts self device_response token_responses).1.2 →
  u = prepare_request_uri (_dc self) (auth_url self) None ∨
  ∃ ai, (ping self device_response).2 = inr ai ∧ u = token_request self ai.
Proof. apply authenticate_posts. Qed.

(** [AsyncAuthenticator.authenticate] does what
    [Authenticator.authenticate] does whenever the polling of the latter
    ends with a token, is left waiting, or raises anything but
    [ServerError]. *)
Theorem async_authenticate_follows
    opts self device_response ai self1 tr1 token_responses self2 tr2 o :
  ping self device_response = (self1, tr1, inr ai) →
  poll callbacks self1 token_responses = (self2, tr2, o) →
  o ≠ SilentStop →
  (∀ arg, o ≠ Raised (ServerError arg)) →
  async_authenticate callbacks opts self device_response token_responses =
  authenticate callbacks opts self device_response token_responses.
Proof.
  intros Hping Hpoll Hstop Hserver. unfold async_authenticate, authenticate.
  rewrite Hping. destruct (prompt opts self1); [done|].
  assert (async_poll callbacks self1 token_responses = (self2, tr2, o)) as ->; [|by rewrite Hpoll].
  revert Hpoll. unfold poll, async_poll. destruct (auth_info self1); [|done].
  destruct (is_secure_transport (token_url self1)); [|done].
  intros Hpoll. by apply poll_loop_async.
Qed.

(** The GitHub preset is an Authenticator for GitHub's two endpoints:
    every request of its [authenticate] goes to one of them, for the
    client id and the scopes it was constructed with and no extras; the
    first without device code, the others with the device code of the
    response to the first. *)
Theorem github_authenticate_requests
    cid sc opts device_response token_responses u :
  let gh := new_github_authenticator cid sc in
  Post u ∈ (authenticate callbacks opts (github_base gh) device_response token_responses).1.2 →
  scope gh = sc ∧
  uri_client u = mkDeviceClient cid sc [] ∧
  (uri_endpoint u = "https://github.com/login/device/code" ∧ uri_device_code u = None ∨
   uri_endpoint u = "https://github.com/login/oauth/access_token" ∧
   uri_device_code u = device_response !! "device_code").
Proof.
  intros gh Hin. split; [done|].
  apply authenticate_posts in Hin as [->|(ai & Hping & ->)].
  - split; [done|]. by left.
  - split; [done|]. right. split; [done|].
    revert Hping. unfold ping, build_auth_info, subscript.
    destruct (device_response !! "device_code") as [dc|]; [|done].
    destruct (device_response !! "user_code"); [|done].
    destruct (device_response !! "expires_in"); [|done].
    destruct (device_response !! "interval"); [|done].
    by intros [= <-].
Qed.

End AuthenticatePaths.

(** ** The further theorems at work *)

Lemma ping_raises_first_missing_key_witness :
  is_secure_transport (auth_url Sample.app) = true ∧
  ping Sample.app Cases.short_response =
    (Sample.app, [Post (prepare_request_uri (_dc Sample.app) (auth_url Sample.app) None)],
     inl (KeyError "user_code")).
Proof.
  split; [by vm_compute|].
  apply (ping_raises_first_missing_key Sample.app Cases.short_response
           ["device_code"] "user_code" ["expires_in"; "interval"]).
  - by vm_compute.
  - reflexivity.
  - apply Forall_cons_2; [|apply Forall_nil_2]. eexists. by vm_compute.
  - by vm_compute.
Defined.

Lemma poll_returns_access_token_witness :
  (poll Sample.no_callbacks Sample.pinged
     [Cases.pending; Sample.token_response "tok"; Cases.pending]).2 = Token (PStr "tok") ∧
  (async_poll Sample.no_callbacks Sample.pinged
     [Cases.pending; Sample.token_response "tok"; Cases.pending]).2 = Token (PStr "tok").
Proof.
  destruct (poll_returns_access_token Sample.no_callbacks Sample.pinged [Cases.pending]
              (Sample.token_response "tok") [Cases.pending] Sample.pinged
              [Post (prepare_request_uri (_dc Sample.pinged) (token_url Sample.pinged)
                       (Some (PStr "dev-1"))); Sleep 5]
              (PStr "tok")) as [Hsync Hasync]; [by vm_compute..|].
  split.
  - destruct Hsync as (ai & _ & Hrun); [by vm_compute|]. exact (f_equal snd Hrun).
  - destruct Hasync as (ai & _ & Hrun); [by vm_compute|]. exact (f_equal snd Hrun).
Defined.

Lemma poll_raises_without_access_token_witness :
  (poll Sample.no_callbacks Sample.pinged [Sample.obj []]).2
    = Raised (KeyError "access_token") ∧
  (async_poll Sample.no_callbacks Sample.pinged [Sample.obj []]).2
    = Raised (KeyError "access_token").
Proof.
  destruct (poll_raises_without_access_token Sample.no_callbacks Sample.pinged []
              (Sample.obj []) [] Sample.pinged []) as [Hsync Hasync]; [by vm_compute..|].
  split.
  - destruct Hsync as (ai & _ & Hrun); [by vm_compute|]. exact (f_equal snd Hrun).
  - destruct Hasync as (ai & _ & Hrun); [by vm_compute|]. exact (f_equal snd Hrun).
Defined.

Lemma poll_propagates_action_error_witness :
  (poll Cases.failing_callbacks (attach_handler Sample.pinged Cases.broken)
     [Sample.error_response "access_denied"; Sample.token_response "tok"]).2
    = Raised (AttributeError "missing").
Proof.
  pose proof (poll_propagates_action_error Cases.failing_callbacks
                (attach_handler Sample.pinged Cases.broken) []
                (Sample.error_response "access_denied") [Sample.token_response "tok"]
                (attach_handler Sample.pinged Cases.broken) []
                (PStr "access_denied") Cases.broken (AttributeError "missing")) as H.
  destruct H as [Hsync _]; [by vm_compute..|].
  destruct Hsync as (ai & _ & Hrun); [by vm_compute|]. exact (f_equal snd Hrun).
Defined.

Lemma poll_error_not_a_string_witness :
  (poll Sample.no_callbacks Sample.pinged [Sample.obj [("error", PInt 429)]]).2
    = Raised (ServerError (Verbatim (PInt 429))).
Proof.
  destruct (poll_error_not_a_string Sample.no_callbacks Sample.pinged []
              (Sample.obj [("error", PInt 429)]) [] Sample.pinged [] (PInt 429))
    as (ai & _ & Hrun); [by vm_compute | done | by vm_compute |].
  exact (f_equal snd Hrun).
Defined.

Lemma poll_waits_while_pending_witness :
  let u := prepare_request_uri (_dc Sample.pinged) (token_url Sample.pinged)
             (Some (PStr "dev-1")) in
  is_secure_transport (token_url Sample.pinged) = true ∧
  (0 ≤ 5 ≤ sleep_limit)%Z ∧
  poll Sample.no_callbacks Sample.pinged
    [Cases.pending; Cases.pending; Sample.token_response "tok"]
  = (Sample.pinged, [Post u; Sleep 5; Post u; Sleep 5; Post u], Token (PStr "tok")).
Proof.
  intros u. split; [by vm_compute|]. split; [by vm_compute|].
  apply (poll_waits_while_pending Sample.no_callbacks Sample.pinged
           (mkAuthInfo (PStr "dev-1") (PStr "ABCD-1234")
              (PStr "https://auth.example/activate") (PInt 900) (PInt 5))
           5 (mkHandler "authorization_pending" sleep_interval true)
           [Cases.pending; Cases.pending] (Sample.token_response "tok") [] (PStr "tok")).
  - by vm_compute.
  - reflexivity.
  - reflexivity.
  - by vm_compute.
  - by vm_compute.
  - reflexivity.
  - reflexivity.
  - apply Forall_cons_2; [by vm_compute|].
    apply Forall_cons_2; [by vm_compute | apply Forall_nil_2].
  - by vm_compute.
  - by vm_compute.
Defined.

Lemma poll_pending_rejects_interval_witness :
  (poll Sample.no_callbacks (ping Sample.app Cases.text_interval_response).1.1
     [Cases.pending; Sample.token_response "tok"]).2 = Raised TypeError.
Proof.
  destruct (poll_pending_rejects_interval Sample.no_callbacks
              (ping Sample.app Cases.text_interval_response).1.1 []
              Cases.pending [Sample.token_response "tok"]
              (ping Sample.app Cases.text_interval_response).1.1 []
              (mkAuthInfo (PStr "dev-1") (PStr "ABCD-1234")
                 (PStr "https://auth.example/activate") (PInt 900) (PStr "5"))
              (mkHandler "authorization_pending" sleep_interval true))
    as (ai & _ & _ & _ & Htype); [by vm_compute.. |].
  exact (f_equal snd (Htype ltac:(done) ltac:(done))).
Defined.

Lemma poll_keeps_authenticator_witness :
  (poll Sample.no_callbacks Sample.pinged
     [Sample.error_response "slow_down"; Cases.pending; Sample.token_response "tok"]).1.1
    = Sample.pinged.
Proof.
  apply (poll_keeps_authenticator Sample.no_callbacks Sample.pinged).
  apply Forall_cons_2; [reflexivity|].
  apply Forall_cons_2; [reflexivity | apply Forall_nil_2].
Defined.

Lemma async_poll_follows_poll_witness :
  let u := prepare_request_uri (_dc Sample.pinged) (token_url Sample.pinged)
             (Some (PStr "dev-1")) in
  async_poll Sample.no_callbacks Sample.pinged [Cases.pending; Sample.token_response "tok"]
  = (Sample.pinged, [Post u; Sleep 5; Post u], Token (PStr "tok")).
Proof.
  intros u. apply (async_poll_follows_poll Sample.no_callbacks); [by vm_compute | done..].
Defined.

Lemma poll_one_request_per_response_witness :
  is_secure_transport (token_url Sample.pinged) = true ∧
  ∃ n,
    requests (poll Sample.no_callbacks Sample.pinged
                [Cases.pending; Sample.token_response "tok"; Cases.pending]).1.2
      = replicate n (prepare_request_uri (_dc Sample.pinged) (token_url Sample.pinged)
                       (Some (PStr "dev-1"))) ∧
    (1 ≤ n ≤ 3)%nat.
Proof.
  split; [by vm_compute|].
  destruct (poll_one_request_per_response Sample.no_callbacks Sample.pinged
              (mkAuthInfo (PStr "dev-1") (PStr "ABCD-1234")
                 (PStr "https://auth.example/activate") (PInt 900) (PInt 5))
              [Cases.pending; Sample.token_response "tok"; Cases.pending]
              ltac:(by vm_compute) eq_refl)
    as (n & Hreq & Hle & _ & Hended).
  exists n. split; [exact Hreq|]. split; [|exact Hle].
  apply Hended. by vm_compute.
Defined.

Lemma authenticate_raises_on_missing_key_witness :
  is_secure_transport (auth_url Sample.app) = true ∧
  ∃ k,
    authenticate Sample.no_callbacks Cases.defaults Sample.app Cases.short_response
      [Sample.token_response "tok"]
    = (Sample.app, [Post (prepare_request_uri (_dc Sample.app) (auth_url Sample.app) None)],
       Raise (KeyError k)).
Proof.
  split; [by vm_compute|].
  destruct (authenticate_raises_on_missing_key Sample.no_callbacks Cases.defaults
              Sample.app Cases.short_response [Sample.token_response "tok"] "interval")
    as (k & Hrun & _).
  - by vm_compute.
  - do 3 apply list_elem_of_further. apply list_elem_of_here.
  - by vm_compute.
  - by exists k.
Defined.

Lemma authenticate_prompt_witness :
  let opts := mkOptions true (Some "Sign in, please") true None true None in
  let quiet := mkOptions false None true None true None in
  consoles (authenticate Sample.no_callbacks opts Sample.app Sample.device_response
              [Sample.token_response "tok"]).1.2 = [Text "Sign in, please"] ∧
  consoles (authenticate Sample.no_callbacks quiet Sample.app Sample.device_response
              [Sample.token_response "tok"]).1.2 = [].
Proof.
  intros opts quiet. split.
  - apply (authenticate_prompt Sample.no_callbacks opts Sample.app Sample.device_response
             [Sample.token_response "tok"]
             (ping Sample.app Sample.device_response).1.1
             [Post (prepare_request_uri (_dc Sample.app) (auth_url Sample.app) None)]
             (mkAuthInfo (PStr "dev-1") (PStr "ABCD-1234")
                (PStr "https://auth.example/activate") (PInt 900) (PInt 5))).
    by vm_compute.
  - apply (authenticate_prompt Sample.no_callbacks quiet Sample.app Sample.device_response
             [Sample.token_response "tok"]
             (ping Sample.app Sample.device_response).1.1
             [Post (prepare_request_uri (_dc Sample.app) (auth_url Sample.app) None)]
             (mkAuthInfo (PStr "dev-1") (PStr "ABCD-1234")
                (PStr "https://auth.example/activate") (PInt 900) (PInt 5))).
    by vm_compute.
Defined.

Lemma authenticate_raises_with_spinner_witness :
  (authenticate Sample.no_callbacks Cases.defaults Sample.app Sample.device_response
     [Sample.error_response "expired_token"]).2
    = Raise (ServerError (Verbatim (PStr "expired_token"))).
Proof.
  destruct (authenticate_raises_with_spinner Sample.no_callbacks Cases.defaults Sample.app
              Sample.device_response
              (mkAuthInfo (PStr "dev-1") (PStr "ABCD-1234")
                 (PStr "https://auth.example/activate") (PInt 900) (PInt 5))
              Sample.pinged
              [Post (prepare_request_uri (_dc Sample.app) (auth_url Sample.app) None)]
              [Sample.error_response "expired_token"]
              Sample.pinged
              [Post (prepare_request_uri (_dc Sample.pinged) (token_url Sample.pinged)
                       (Some (PStr "dev-1")))]
              (ServerError (Verbatim (PStr "expired_token")))
              (mkHalo "Waiting for authentication..." "dots"))
    as (shown & _ & Hrun); [by vm_compute..|].
  exact (f_equal snd Hrun).
Defined.

Lemma authenticate_swallows_without_spinner_witness :
  (authenticate Sample.no_callbacks Cases.no_spinner Sample.app Sample.device_response
     [Sample.error_response "expired_token"]).2 = Return PNone.
Proof.
  destruct (authenticate_swallows_without_spinner Sample.no_callbacks Cases.no_spinner
              Sample.app Sample.device_response
              (mkAuthInfo (PStr "dev-1") (PStr "ABCD-1234")
                 (PStr "https://auth.example/activate") (PInt 900) (PInt 5))
              Sample.pinged
              [Post (prepare_request_uri (_dc Sample.app) (auth_url Sample.app) None)]
              [Sample.error_response "expired_token"]
              Sample.pinged
              [Post (prepare_request_uri (_dc Sample.pinged) (token_url Sample.pinged)
                       (Some (PStr "dev-1")))]
              (ServerError (Verbatim (PStr "expired_token"))))
    as (shown & _ & Hrun); [by vm_compute..|].
  exact (f_equal snd Hrun).
Defined.

Lemma authenticate_requests_witness :
  let u := prepare_request_uri (_dc Sample.app) (token_url Sample.app)
             (Some (PStr "dev-1")) in
  u = prepare_request_uri (_dc Sample.app) (auth_url Sample.app) None ∨
  ∃ ai, (ping Sample.app Sample.device_response).2 = inr ai
        ∧ u = token_request Sample.app ai.
Proof.
  intros u.
  apply (authenticate_requests Sample.no_callbacks Cases.defaults Sample.app
           Sample.device_response [Sample.token_response "tok"] u).
  vm_compute. do 3 apply list_elem_of_further. apply list_elem_of_here.
Defined.

Lemma async_authenticate_follows_witness :
  async_authenticate Sample.no_callbacks Cases.defaults Sample.app Sample.device_response
    [Cases.pending; Sample.token_response "tok"]
  = authenticate Sample.no_callbacks Cases.defaults Sample.app Sample.device_response
      [Cases.pending; Sample.token_response "tok"].
Proof.
  eapply (async_authenticate_follows Sample.no_callbacks Cases.defaults Sample.app
            Sample.device_response _ _ _ _ _ _ (Token (PStr "tok")));
    [by vm_compute | by vm_compute | done..].
Defined.

Lemma github_authenticate_requests_witness :
  let gh := new_github_authenticator "Iv1.0123456789abcdef" (Some ["repo"; "read:org"]) in
  let u := prepare_request_uri (_dc (github_base gh)) (token_url (github_base gh))
             (Some (PStr "dev-1")) in
  scope gh = Some ["repo"; "read:org"] ∧
  uri_client u = mkDeviceClient "Iv1.0123456789abcdef" (Some ["repo"; "read:org"]) [] ∧
  (uri_endpoint u = "https://github.com/login/device/code" ∧ uri_device_code u = None ∨
   uri_endpoint u = "https://github.com/login/oauth/access_token" ∧
   uri_device_code u = Sample.device_response !! "device_code").
Proof.
  intros gh u.
  apply (github_authenticate_requests Sample.no_callbacks "Iv1.0123456789abcdef"
           (Some ["repo"; "read:org"]) Cases.defaults Sample.device_response
           [Sample.token_response "tok"] u).
  vm_compute. do 3 apply list_elem_of_further. apply list_elem_of_here.
Defined.
